(** * bmutil: broadcast cipher, inventory messages and WIF import

    A shallow embedding of [cipher/broadcast.go], of [MsgInv] from package
    [wire] and of [ImportWIF] from package [identity], with the properties
    their documentation states.

    Conventions.
    - Go's [error] is [option err]; [None] is [nil].
    - A Go function returning [(T, error)] whose [T] is meaningless on error
      returns [result T] when it is a collaborator, and the pair
      [(option T * error)] when it is one of the functions embedded here and
      returns a pointer.
    - A method with a pointer receiver that returns [error] returns the
      receiver after the call together with the error ([decodeFromDecrypted],
      whose receiver is discarded on error by its only caller, returns a
      [result]).
    - A Go pointer that the embedded code never tests against nil is the
      value it points to; [Broadcast.msg], which is tested, is an [option].
    - Calls into the cryptographic collaborators, [make] and [readInvVect] are
      recorded in a trace of [event]s (monad [M]), so that "before any ..."
      can be stated. *)

From Stdlib Require Import String List ZArith NArith Lia Bool DecimalString.
From Stdlib.Strings Require Import Byte.
Import ListNotations.
Local Open Scope string_scope.
Local Open Scope list_scope.

(** ** Go values *)

Definition bytes : Type := list byte.

(** Error values.  The sentinels are package-level variables compared with
    [==]; [errorString] is what [errors.New] and [fmt.Errorf] build;
    [errorPrefixed p e] is the [errorString] whose text is [p] followed by
    [e.Error()], as built by [fmt.Errorf(p + "%v", e)] and
    [errors.New(p + e.Error())]. *)
Inductive err : Type :=
| ErrInvalidIdentity                         (* cipher.ErrInvalidIdentity *)
| ErrInvalidSignature                        (* cipher.ErrInvalidSignature *)
| ErrInvalidMAC                              (* btcec.ErrInvalidMAC *)
| EOF                                        (* io.EOF *)
| ErrUnexpectedEOF                           (* io.ErrUnexpectedEOF *)
| errorString (s : string)
| errorPrefixed (prefix : string) (cause : err)
| MessageError (Func Description : string).  (* wire.MessageError *)

Definition error : Type := option err.

Inductive result (A : Type) : Type :=
| Ok (a : A)
| Err (e : err).
Arguments Ok {A} a.
Arguments Err {A} e.

Inductive outcome (A : Type) : Type :=
| Returns (a : A)
| Panics (s : string).
Arguments Returns {A} a.
Arguments Panics {A} s.

(** [%d] and [%v] of an unsigned integer. *)
Definition decimal (n : N) : string := NilEmpty.string_of_uint (N.to_uint n).

(** wire.NewMessageError *)
Definition NewMessageError (f desc : string) : err := MessageError f desc.

(** [io.Writer]. *)
Class Writer (W : Type) : Type := Write : W -> bytes -> W * error.

(** [bytes.Buffer]: its unread contents.  Writing appends and never fails. *)
Record Buffer : Type := mkBuffer { Bytes : bytes }.

Definition emptyBuffer : Buffer := mkBuffer [].

#[global] Instance Buffer_Writer : Writer Buffer :=
  fun b p => (mkBuffer (Bytes b ++ p), None).

Definition Buffer_Reset (b : Buffer) : Buffer := mkBuffer [].

(** An [io.Reader] over a byte stream ([bytes.Buffer], [bytes.Reader]): the
    bytes not read yet. *)
Definition Reader : Type := bytes.

(** [make([]byte, n)] *)
Definition make_bytes (n : nat) : bytes := repeat x00 n.

(** [io.ReadFull(r, buf)] for [len(buf) = n]: the reader after the call, the
    buffer after the call and the error.  A short stream leaves the bytes read
    at the front of the zeroed buffer and fails with [io.EOF] when nothing was
    read, [io.ErrUnexpectedEOF] otherwise. *)
Definition ReadFull (r : Reader) (n : nat) : Reader * (bytes * error) :=
  if (length r <? n)%nat then
    ([], (r ++ make_bytes (n - length r),
          Some (match r with [] => EOF | _ :: _ => ErrUnexpectedEOF end)))
  else (skipn n r, (firstn n r, None)).

Fixpoint bytes_Equal (a b : bytes) : bool :=
  match a, b with
  | [], [] => true
  | x :: a', y :: b' => Byte.eqb x y && bytes_Equal a' b'
  | _, _ => false
  end.

(** ** The trace of observable operations *)

Inductive event : Type :=
| EvTag                        (* bmutil.Tag *)
| EvBroadcastDecryptionKey     (* bmutil.V4/V5BroadcastDecryptionKey *)
| EvSHA256                     (* sha256.Sum256 *)
| EvSHA1                       (* sha1.Sum *)
| EvSign                       (* PrivateKey.Sign *)
| EvParseSignature             (* btcec.ParseSignature *)
| EvVerify (hash : bytes)       (* Signature.Verify against this hash *)
| EvEncrypt                    (* btcec.Encrypt *)
| EvDecrypt                    (* btcec.Decrypt *)
| EvMake (capacity : N)        (* make([]*InvVect, 0, capacity) *)
| EvReadInvVect.               (* readInvVect *)

Definition M (A : Type) : Type := list event * A.

Definition ret {A : Type} (a : A) : M A := ([], a).

Definition bind {A B : Type} (c : M A) (k : A -> M B) : M B :=
  let '(t1, a) := c in
  let '(t2, b) := k a in
  (t1 ++ t2, b).

Definition call {A : Type} (e : event) (a : A) : M A := ([e], a).

Definition trace {A : Type} (c : M A) : list event := fst c.
Definition value {A : Type} (c : M A) : A := snd c.

Notation "x <- c ;; k" := (bind c (fun x => k))
  (at level 61, c at next level, right associativity).

(** ** crypto/subtle *)

Module subtle.

Definition byteZ (b : byte) : Z := Z.of_N (Byte.to_N b).

(** [int((uint32(x^y) - 1) >> 31)] *)
Definition ConstantTimeByteEq (x y : Z) : Z :=
  Z.shiftr ((Z.lxor x y - 1) mod 2 ^ 32) 31.

(** The loop [v |= x[i] ^ y[i]] over slices of one length. *)
Fixpoint accumulate (v : Z) (x y : bytes) : Z :=
  match x, y with
  | a :: x', b :: y' => accumulate (Z.lor v (Z.lxor (byteZ a) (byteZ b))) x' y'
  | _, _ => v
  end.

Definition ConstantTimeCompare (x y : bytes) : Z :=
  if negb (length x =? length y)%nat then 0%Z
  else ConstantTimeByteEq (accumulate 0 x y) 0.

End subtle.

(** ** Data declared in the collaborating packages *)

Module pow.
(** pow.Data *)
Record Data : Type := { NonceTrialsPerByte : N; ExtraBytes : N }.
End pow.

Module wire.
(** wire.PubKey: 64 bytes of key material. *)
Definition PubKey : Type := bytes.
(** The header built by [wire.NewObjectHeader]; [expiration] is a
    [time.Time], kept as its Unix seconds. *)
Record ObjectHeader : Type := NewObjectHeader {
  Nonce : N;
  expiration : Z;
  ObjectType : N;
  Version : N;
  StreamNumber : N }.
(** wire.InvVect *)
Record InvVect : Type := { Hash : bytes }.
End wire.

Module obj.
(** The two implementations of the interface [obj.Broadcast], with the fields
    their constructors take. *)
Record TaglessBroadcast : Type := NewTaglessBroadcast {
  tl_nonce : N;
  tl_expiration : Z;
  tl_streamNumber : N;
  tl_encrypted : bytes }.
Record TaggedBroadcast : Type := NewTaggedBroadcast {
  tg_nonce : N;
  tg_expiration : Z;
  tg_streamNumber : N;
  Tag : bytes;
  tg_encrypted : bytes }.
Inductive Broadcast : Type :=
| Tagless (m : TaglessBroadcast)
| Tagged (m : TaggedBroadcast).
Definition Encrypted (m : Broadcast) : bytes :=
  match m with
  | Tagless m => tl_encrypted m
  | Tagged m => tg_encrypted m
  end.
End obj.

(** Modelled from the spec: the struct [Bitmessage] of package cipher, which
    is declared outside the files embedded here.  The fields are those of the
    data model (keys, pow, behavior, optional destination, body); the names
    are the ones [broadcast.go] uses.  [Body] is the payload, opaque to the
    cipher layer. *)
Record Bitmessage : Type := {
  SigningKey : wire.PubKey;
  EncryptionKey : wire.PubKey;
  Pow : pow.Data;
  Behavior : N;
  Destination : option bytes;
  Body : bytes }.

(** The caller-visible fields of a broadcast's [Bitmessage]. *)
Definition visible (m : Bitmessage) : wire.PubKey * wire.PubKey * pow.Data * N * bytes :=
  (SigningKey m, EncryptionKey m, Pow m, Behavior m, Body m).

(** ** Collaborators

    What the embedded files call and do not define: the opaque values of
    [bmutil], [btcec] and [identity], the hash functions, the wire codecs and
    the protocol constants.  Each field is the input-output behaviour of the
    Go function of that name. *)
Class Collaborators : Type := {
  (* opaque values *)
  Address : Type;                     (* bmutil.Address *)
  PrivateKey : Type;                  (* btcec.PrivateKey *)
  PublicKey : Type;                   (* btcec.PublicKey *)
  Signature : Type;                   (* btcec.Signature *)
  Public : Type;                      (* identity.Public *)
  (* methods of bmutil.Address *)
  Address_Version : Address -> N;
  Address_Stream : Address -> N;
  Address_RipeHash : Address -> bytes;
  Address_String : Address -> string;
  (* package bmutil *)
  Tag : Address -> bytes;
  V4BroadcastDecryptionKey : Address -> PrivateKey;
  V5BroadcastDecryptionKey : Address -> PrivateKey;
  WriteVarInt : forall (W : Type), Writer W -> W -> N -> W * error;
  ReadVarInt : Reader -> Reader * result N;
  DecodeAddress : string -> result Address;
  DecodeWIF : string -> result PrivateKey;
  (* package btcec *)
  PubKey : PrivateKey -> PublicKey;
  SerializeUncompressed : PublicKey -> bytes;
  Sign : PrivateKey -> bytes -> result Signature;
  Serialize : Signature -> bytes;
  ParseSignature : bytes -> result Signature;
  Verify : Signature -> bytes -> PublicKey -> bool;
  Encrypt : PublicKey -> bytes -> result bytes;
  Decrypt : PrivateKey -> bytes -> result bytes;
  (* crypto/sha256, crypto/sha1, crypto/sha512, ripemd160 *)
  Sum256 : bytes -> bytes;
  sha1_Sum : bytes -> bytes;
  sha512_Sum : bytes -> bytes;
  ripemd160_Sum : bytes -> bytes;
  (* package wire *)
  ToBtcec : wire.PubKey -> result PublicKey;
  ObjectTypeBroadcast : N;
  MaxInvPerMsg : N;
  Header_EncodeForSigning : forall (W : Type), Writer W -> wire.ObjectHeader -> W -> W * error;
  WriteElement : forall (W : Type), Writer W -> W -> bytes -> W * error;
  readInvVect : Reader -> Reader * result wire.InvVect;
  (* package obj *)
  SignatureMaxLength : N;
  TaglessBroadcastVersion : N;
  TaggedBroadcastVersion : N;
  Broadcast_EncodeForSigning : forall (W : Type), Writer W -> obj.Broadcast -> W -> W * error;
  (* package cipher: the codec of Bitmessage *)
  encodeBroadcast : forall (W : Type), Writer W -> Bitmessage -> W -> W * error;
  decodeBroadcast : Reader -> Reader * result Bitmessage;
  (* package identity *)
  NewPublic : PublicKey -> PublicKey -> N -> pow.Data -> N -> N -> result Public;
  Public_Address : Public -> Address;
  createAddress : N -> N -> bytes -> result Address }.

Arguments WriteVarInt {_ W _} w n.
Arguments Header_EncodeForSigning {_ W _} h w.
Arguments WriteElement {_ W _} w element.
Arguments Broadcast_EncodeForSigning {_ W _} m w.
Arguments encodeBroadcast {_ W _} data w.

(** ** Package identity *)

Module identity.
Section Identity.
Context {C : Collaborators}.

(** Private, with the embedded [pow.Data] as the field [Data]. *)
Record Private : Type := {
  address : Address;
  Data : pow.Data;
  SigningKey : PrivateKey;
  DecryptionKey : PrivateKey;
  Behavior : N }.

Definition Private_Address (id : Private) : Address := address id.

Definition hashHelper (signingKey decryptionKey : bytes) : bytes :=
  ripemd160_Sum (sha512_Sum (signingKey ++ decryptionKey)).

Definition hash (id : Private) : bytes :=
  hashHelper (SerializeUncompressed (PubKey (SigningKey id)))
             (SerializeUncompressed (PubKey (DecryptionKey id))).

Definition ImportWIF (addressStr signingKeyWif decryptionKeyWif : string)
    (nonceTrials extraBytes : N) : option Private * error :=
  match DecodeAddress addressStr with
  | Err e => (None, Some e)
  | Ok addr =>
    match DecodeWIF signingKeyWif with
    | Err e => (None, Some (errorPrefixed "signing key decode failed: " e))
    | Ok privSigningKey =>
      match DecodeWIF decryptionKeyWif with
      | Err e => (None, Some (errorPrefixed "encryption key decode failed: " e))
      | Ok privDecryptionKey =>
        let priv := {| address := addr;
                       SigningKey := privSigningKey;
                       DecryptionKey := privDecryptionKey;
                       Data := {| pow.NonceTrialsPerByte := nonceTrials;
                                  pow.ExtraBytes := extraBytes |};
                       Behavior := 0 |} in
        (* check if everything is valid *)
        match createAddress (Address_Version addr) (Address_Stream addr) (hash priv) with
        | Err e => (None, Some e)
        | Ok a =>
          let priv := {| address := a;
                         SigningKey := SigningKey priv;
                         DecryptionKey := DecryptionKey priv;
                         Data := Data priv;
                         Behavior := Behavior priv |} in
          if negb (bytes_Equal (Address_RipeHash (address priv)) (Address_RipeHash addr))
          then (None, Some (errorString "address does not correspond to private keys"))
          else (Some priv, None)
        end
      end
    end
  end.

End Identity.
End identity.

(** ** Package wire: MsgInv *)

Module msginv.
Section MsgInv.
Context {C : Collaborators}.

Record MsgInv : Type := { InvList : list wire.InvVect }.

(** AddInvVect adds an inventory vector to the message. *)
Definition AddInvVect (msg : MsgInv) (iv : wire.InvVect) : MsgInv * error :=
  if (MaxInvPerMsg <? N.of_nat (length (InvList msg)) + 1)%N then
    let str := ("too many invvect in message [max " ++ decimal MaxInvPerMsg ++ "]")%string in
    (msg, Some (NewMessageError "MsgInv.AddInvVect" str))
  else ({| InvList := InvList msg ++ [iv] |}, None).

(** The loop of [Decode], [n] iterations left: read one vector, stop at the
    first error, otherwise add it (the result of [AddInvVect] is dropped). *)
Fixpoint readInvVects (n : nat) (msg : MsgInv) (r : Reader) : M (MsgInv * Reader * error) :=
  match n with
  | O => ret (msg, r, None)
  | S n' =>
    x <- call EvReadInvVect (readInvVect r) ;;
    match x with
    | (r, Err e) => ret (msg, r, Some e)
    | (r, Ok iv) => readInvVects n' (fst (AddInvVect msg iv)) r
    end
  end.

(** Decode: the message and the reader after the call, and the error. *)
Definition Decode (msg : MsgInv) (r : Reader) : M (MsgInv * Reader * error) :=
  match ReadVarInt r with
  | (r, Err e) => ret (msg, r, Some e)
  | (r, Ok count) =>
    (* Limit to max inventory vectors per message. *)
    if (MaxInvPerMsg <? count)%N then
      let str := ("too many invvect in message [" ++ decimal count ++ "]")%string in
      ret (msg, r, Some (NewMessageError "MsgInv.Decode" str))
    else
      msg <- call (EvMake count) {| InvList := [] |} ;;
      readInvVects (N.to_nat count) msg r
  end.

End MsgInv.
End msginv.

(** ** Package cipher: broadcast.go *)

Module cipher.
Section Cipher.
Context {C : Collaborators}.

(** The two implementations of [incompleteBroadcast]. *)
Inductive incompleteBroadcast : Type :=
| incompleteTaglessBroadcast (expiration : Z) (streamNumber : N)
| incompleteTaggedBroadcast (expiration : Z) (streamNumber : N) (tag : bytes).

Definition Encode {W : Type} `{Writer W} (i : incompleteBroadcast) (w : W) : W * error :=
  match i with
  | incompleteTaglessBroadcast expiration streamNumber =>
    match Header_EncodeForSigning
            (wire.NewObjectHeader 0 expiration ObjectTypeBroadcast
               TaglessBroadcastVersion streamNumber) w with
    | (w, Some e) => (w, Some e)
    | (w, None) => (w, None)
    end
  | incompleteTaggedBroadcast expiration streamNumber tag =>
    match Header_EncodeForSigning
            (wire.NewObjectHeader 0 expiration ObjectTypeBroadcast
               TaggedBroadcastVersion streamNumber) w with
    | (w, Some e) => (w, Some e)
    | (w, None) =>
      match WriteElement w tag with
      | (w, Some e) => (w, Some e)
      | (w, None) => (w, None)
      end
    end
  end.

Definition Encrypt_incomplete (i : incompleteBroadcast) (address : Address) (data : bytes)
    : M (option obj.Broadcast * error) :=
  match i with
  | incompleteTaglessBroadcast expiration streamNumber =>
    key <- call EvBroadcastDecryptionKey (V4BroadcastDecryptionKey address) ;;
    x <- call EvEncrypt (Encrypt (PubKey key) data) ;;
    match x with
    | Err e => ret (None, Some e)
    | Ok encrypted =>
      ret (Some (obj.Tagless (obj.NewTaglessBroadcast 0 expiration streamNumber encrypted)), None)
    end
  | incompleteTaggedBroadcast expiration streamNumber tag =>
    key <- call EvBroadcastDecryptionKey (V5BroadcastDecryptionKey address) ;;
    x <- call EvEncrypt (Encrypt (PubKey key) data) ;;
    match x with
    | Err e => ret (None, Some e)
    | Ok encrypted =>
      ret (Some (obj.Tagged (obj.NewTaggedBroadcast 0 expiration streamNumber tag encrypted)), None)
    end
  end.

(** broadcastEncodeForSigning encodes Broadcast so that it can be hashed and
    signed. *)
Definition broadcastEncodeForSigning {W : Type} `{Writer W}
    (w : W) (i : incompleteBroadcast) (data : Bitmessage) : W * error :=
  match Encode i w with
  | (w, Some e) => (w, Some e)
  | (w, None) =>
    match encodeBroadcast data w with
    | (w, Some e) => (w, Some e)
    | (w, None) => (w, None)
    end
  end.

(** Broadcast.  [msg] is an interface value and may be nil; [data] is the
    Bitmessage the pointer refers to. *)
Record Broadcast : Type := {
  msg : option obj.Broadcast;
  data : Bitmessage;
  signature : bytes }.

(** Object returns the object form of the message. *)
Definition Object (broadcast : Broadcast) : option obj.Broadcast := msg broadcast.

(** encodeForSigning encodes Broadcast so that it can be hashed and signed. *)
Definition encodeForSigning {W : Type} `{Writer W} (broadcast : Broadcast) (w : W)
    : outcome (W * error) :=
  match msg broadcast with
  | None => Panics "msg is nil"
  | Some m =>
    match Broadcast_EncodeForSigning m w with
    | (w, Some e) => Returns (w, Some e)
    | (w, None) =>
      match encodeBroadcast (data broadcast) w with
      | (w, Some e) => Returns (w, Some e)
      | (w, None) => Returns (w, None)
      end
    end
  end.

(** encodeForEncryption encodes Broadcast so that it can be encrypted. *)
Definition encodeForEncryption {W : Type} `{Writer W} (broadcast : Broadcast) (w : W)
    : W * error :=
  match encodeBroadcast (data broadcast) w with
  | (w, Some e) => (w, Some e)
  | (w, None) =>
    let sigLength := N.of_nat (length (signature broadcast)) in
    match WriteVarInt w sigLength with
    | (w, Some e) => (w, Some e)
    | (w, None) =>
      match Write w (signature broadcast) with
      | (w, Some e) => (w, Some e)
      | (w, None) => (w, None)
      end
    end
  end.

(** decodeFromDecrypted decodes Broadcast from its decrypted form.  The method
    overwrites [data] and [signature] of its receiver and reads neither, so
    the embedding takes the receiver's [msg] and returns the reader after the
    call with, on success, the receiver after the call. *)
Definition decodeFromDecrypted (msg0 : option obj.Broadcast) (r : Reader)
    : Reader * result Broadcast :=
  match decodeBroadcast r with
  | (r, Err e) => (r, Err e)
  | (r, Ok data) =>
    match ReadVarInt r with
    | (r, Err e) => (r, Err e)
    | (r, Ok sigLength) =>
      if (SignatureMaxLength <? sigLength)%N then
        let str := ("signature length exceeds max length - " ++
                    "indicates " ++ decimal sigLength ++
                    ", but max length is " ++ decimal SignatureMaxLength)%string in
        (r, Err (NewMessageError "DecodeFromDecrypted" str))
      else
        match ReadFull r (N.to_nat sigLength) with
        | (r, (sig, Some e)) => (r, Err e)
        | (r, (sig, None)) =>
          (r, Ok {| msg := msg0; data := data; signature := sig |})
        end
    end
  end.

(** signAndEncrypt: the receiver after the call and the error. *)
Definition signAndEncrypt (broadcast : Broadcast) (i : incompleteBroadcast)
    (address : Address) (private : identity.Private) : M (Broadcast * error) :=
  (* Start signing *)
  let b := emptyBuffer in
  match broadcastEncodeForSigning b i (data broadcast) with
  | (b, Some e) => ret (broadcast, Some e)
  | (b, None) =>
    (* Hash *)
    hash <- call EvSHA256 (Sum256 (Bytes b)) ;;
    let b := Buffer_Reset b in
    (* Sign *)
    x <- call EvSign (Sign (identity.SigningKey private) hash) ;;
    match x with
    | Err e => ret (broadcast, Some (errorPrefixed "signing failed: " e))
    | Ok sig =>
      let broadcast := {| msg := msg broadcast;
                          data := data broadcast;
                          signature := Serialize sig |} in
      (* Start encryption *)
      match encodeForEncryption broadcast b with
      | (b, Some e) => ret (broadcast, Some e)
      | (b, None) =>
        (* Encrypt *)
        x <- Encrypt_incomplete i address (Bytes b) ;;
        let broadcast := {| msg := fst x;
                            data := data broadcast;
                            signature := signature broadcast |} in
        match snd x with
        | Some e => ret (broadcast, Some (errorPrefixed "encryption failed: " e))
        | None => ret (broadcast, None)
        end
      end
    end
  end.

(** The error of [verify] when the regenerated address differs. *)
Definition forwardingError (dencAddr genAddr : string) : err :=
  errorString ("Address used for decryption (" ++ dencAddr ++ ") doesn't match " ++
               "that generated from public key (" ++ genAddr ++ "). Possible surreptitious " ++
               "forwarding attack.")%string.

Definition verify (broadcast : Broadcast) (address : Address) : M (outcome error) :=
  match msg broadcast with
  | None => ret (Panics "msg is nil")
  | Some _ =>
    (* Check if embedded keys correspond to the address used to decrypt. *)
    match ToBtcec (SigningKey (data broadcast)) with
    | Err e => ret (Returns (Some e))
    | Ok signKey =>
      match ToBtcec (EncryptionKey (data broadcast)) with
      | Err e => ret (Returns (Some e))
      | Ok encKey =>
        match NewPublic signKey encKey
                (Behavior (data broadcast))
                (Pow (data broadcast))
                (Address_Version address) (Address_Stream address) with
        | Err e => ret (Returns (Some e))
        | Ok id =>
          let addr := Public_Address id in
          let genAddr := Address_String addr in
          let dencAddr := Address_String address in
          if negb (String.eqb dencAddr genAddr) then
            ret (Returns (Some (forwardingError dencAddr genAddr)))
          else
            (* Start signature verification *)
            match encodeForSigning broadcast emptyBuffer with
            | Panics s => ret (Panics s)
            | Returns (b, Some e) => ret (Returns (Some e))
            | Returns (b, None) =>
              (* Hash *)
              hash <- call EvSHA256 (Sum256 (Bytes b)) ;;
              sha1hash <- call EvSHA1 (sha1_Sum (Bytes b)) ;; (* backwards compatibility *)
              (* Verify *)
              x <- call EvParseSignature (ParseSignature (signature broadcast)) ;;
              match x with
              | Err _ => ret (Returns (Some ErrInvalidSignature))
              | Ok sig =>
                ok256 <- call (EvVerify hash) (Verify sig hash signKey) ;; (* Try SHA256 first *)
                if negb ok256 then
                  ok1 <- call (EvVerify sha1hash) (Verify sig sha1hash signKey) ;; (* then SHA1 *)
                  if negb ok1 then ret (Returns (Some ErrInvalidSignature))
                  else ret (Returns None)
                else ret (Returns None)
              end
            end
        end
      end
    end
  end.

Definition noDestination : err := errorString "Broadcasts do not have a destination.".

(** CreateTaglessBroadcast creates a Broadcast that we send over the network,
    as opposed to one that we receive and decrypt. *)
Definition CreateTaglessBroadcast (expiration : Z) (data : Bitmessage)
    (private : identity.Private) : M (option Broadcast * error) :=
  let address := identity.Private_Address private in
  match Destination data with
  | Some _ => ret (None, Some noDestination)
  | None =>
    let broadcast := {| msg := None; data := data; signature := [] |} in
    x <- signAndEncrypt broadcast
           (incompleteTaglessBroadcast expiration (Address_Stream address))
           address private ;;
    match x with
    | (_, Some e) => ret (None, Some e)
    | (broadcast, None) => ret (Some broadcast, None)
    end
  end.

(** CreateTaggedBroadcast creates a Broadcast that we send over the network,
    as opposed to one that we receive and decrypt. *)
Definition CreateTaggedBroadcast (expires : Z) (data : Bitmessage) (tag : bytes)
    (private : identity.Private) : M (option Broadcast * error) :=
  let address := identity.Private_Address private in
  match Destination data with
  | Some _ => ret (None, Some noDestination)
  | None =>
    let broadcast := {| msg := None; data := data; signature := [] |} in
    x <- signAndEncrypt broadcast
           (incompleteTaggedBroadcast expires (Address_Stream address) tag)
           address private ;;
    match x with
    | (_, Some e) => ret (None, Some e)
    | (broadcast, None) => ret (Some broadcast, None)
    end
  end.

Definition newBroadcast (msg : obj.Broadcast) (key : PrivateKey) (address : Address)
    : M (outcome (option Broadcast * error)) :=
  let encrypted := obj.Encrypted msg in
  x <- call EvDecrypt (Decrypt key encrypted) ;;
  match x with
  | Err ErrInvalidMAC => ret (Returns (None, Some ErrInvalidIdentity)) (* invalid key *)
  | Err e => ret (Returns (None, Some e))
  | Ok dec =>
    let b := fst (Write emptyBuffer dec) in
    match decodeFromDecrypted None (Bytes b) with
    | (_, Err e) => ret (Returns (None, Some e))
    | (_, Ok broadcast) =>
      let broadcast := {| msg := Some msg;
                          data := data broadcast;
                          signature := signature broadcast |} in
      x <- verify broadcast address ;;
      match x with
      | Panics s => ret (Panics s)
      | Returns (Some e) => ret (Returns (None, Some e))
      | Returns None => ret (Returns (Some broadcast, None))
      end
    end
  end.

(** NewTaglessBroadcast takes a broadcast we have received over the network
    and attempts to decrypt it. *)
Definition NewTaglessBroadcast (msg : obj.TaglessBroadcast) (address : Address)
    : M (outcome (option Broadcast * error)) :=
  key <- call EvBroadcastDecryptionKey (V4BroadcastDecryptionKey address) ;;
  x <- newBroadcast (obj.Tagless msg) key address ;;
  match x with
  | Panics s => ret (Panics s)
  | Returns (_, Some e) => ret (Returns (None, Some e))
  | Returns (broadcast, None) => ret (Returns (broadcast, None))
  end.

(** NewTaggedBroadcast takes a broadcast we have received over the network
    and attempts to decrypt it. *)
Definition NewTaggedBroadcast (msg : obj.TaggedBroadcast) (address : Address)
    : M (outcome (option Broadcast * error)) :=
  tag <- call EvTag (Tag address) ;;
  if negb (subtle.ConstantTimeCompare (obj.Tag msg) tag =? 1)%Z then
    ret (Returns (None, Some ErrInvalidIdentity))
  else
    key <- call EvBroadcastDecryptionKey (V5BroadcastDecryptionKey address) ;;
    x <- newBroadcast (obj.Tagged msg) key address ;;
    match x with
    | Panics s => ret (Panics s)
    | Returns (_, Some e) => ret (Returns (None, Some e))
    | Returns (broadcast, None) => ret (Returns (broadcast, None))
    end.

End Cipher.
End cipher.

(** ** A sample instance of the collaborators

    Small executable stand-ins on which the embedding runs on concrete
    inputs: keys are numbers, a signature names the public key and the hash
    it was made over, a ciphertext names the public key it was made for.  The
    variable-length integers follow the Bitmessage wire layout (one byte
    below 253, else a marker byte and 2, 4 or 8 bytes, big endian). *)

Module Sample.

Definition byte_of (n : N) : byte :=
  match Byte.of_N (n mod 256) with
  | Some b => b
  | None => x00
  end.

(** The low [k] bytes of [n], big endian. *)
Fixpoint be (k : nat) (n : N) : bytes :=
  match k with
  | O => []
  | S k' => byte_of (n / 256 ^ N.of_nat k') :: be k' n
  end.

Definition unbe (bs : bytes) : N :=
  fold_left (fun acc b => (acc * 256 + Byte.to_N b)%N) bs 0%N.

Definition varint (n : N) : bytes :=
  if (n <? 253)%N then [byte_of n]
  else if (n <=? 65535)%N then xfd :: be 2 n
  else if (n <=? 4294967295)%N then xfe :: be 4 n
  else xff :: be 8 n.

Definition writeVarInt (W : Type) (H : Writer W) (w : W) (n : N) : W * error :=
  Write w (varint n).

Definition readVarInt (r : Reader) : Reader * result N :=
  match r with
  | [] => ([], Err EOF)
  | b :: r' =>
    let d := Byte.to_N b in
    if (d <? 253)%N then (r', Ok d)
    else
      let k := if (d =? 253)%N then 2%nat else if (d =? 254)%N then 4%nat else 8%nat in
      if (length r' <? k)%nat then ([], Err ErrUnexpectedEOF)
      else (skipn k r', Ok (unbe (firstn k r')))
  end.

(** Stand-ins for the hash functions: polynomial checksums of fixed width. *)
Definition checksum (base modulus : N) (width : nat) (bs : bytes) : bytes :=
  be width (fold_left (fun acc b => ((acc * base + Byte.to_N b + 1) mod modulus)%N) bs 7%N).

Definition sum256 : bytes -> bytes := checksum 31 4294967291 32.
Definition sum1 : bytes -> bytes := checksum 17 65521 20.
Definition sum512 : bytes -> bytes := checksum 33 4294967279 64.
Definition ripemd : bytes -> bytes := checksum 37 16777213 20.

Record address : Type := { addrVersion : N; addrStream : N; addrRipe : bytes }.

Definition addressBytes (a : address) : bytes :=
  byte_of (addrVersion a) :: byte_of (addrStream a) :: addrRipe a.

Definition hexDigit (n : N) : byte :=
  nth (N.to_nat n)
    ["0"; "1"; "2"; "3"; "4"; "5"; "6"; "7"; "8"; "9"; "a"; "b"; "c"; "d"; "e"; "f"]%byte
    "?"%byte.

Fixpoint hex (bs : bytes) : bytes :=
  match bs with
  | [] => []
  | b :: bs' =>
    hexDigit (Byte.to_N b / 16) :: hexDigit (Byte.to_N b mod 16) :: hex bs'
  end.

Definition hexValue (c : byte) : option N :=
  let n := Byte.to_N c in
  if ((48 <=? n) && (n <=? 57))%N then Some (n - 48)%N
  else if ((97 <=? n) && (n <=? 102))%N then Some (n - 87)%N
  else None.

Fixpoint unhex (fuel : nat) (cs : bytes) : option bytes :=
  match fuel, cs with
  | _, [] => Some []
  | S fuel', c :: d :: cs' =>
    match hexValue c, hexValue d, unhex fuel' cs' with
    | Some h, Some l, Some bs => Some (byte_of (16 * h + l) :: bs)
    | _, _, _ => None
    end
  | _, _ => None
  end.

Definition addressString (a : address) : string :=
  ("BM-" ++ string_of_list_byte (hex (addressBytes a)))%string.

Definition decodeAddress (s : string) : result address :=
  match list_byte_of_string s with
  | "B"%byte :: "M"%byte :: "-"%byte :: cs =>
    match unhex (length cs) cs with
    | Some (v :: st :: ripe) =>
      Ok {| addrVersion := Byte.to_N v; addrStream := Byte.to_N st; addrRipe := ripe |}
    | _ => Err (errorString "address is not hexadecimal")
    end
  | _ => Err (errorString "address does not start with BM-")
  end.

Definition decodeWIF (s : string) : result N :=
  match NilEmpty.uint_of_string s with
  | Some u => Ok (N.of_uint u)
  | None => Err (errorString "key is not a decimal number")
  end.

Definition pubKey (k : N) : N := (2 * k + 1)%N.

Definition serializeUncompressed (p : N) : bytes := x04 :: be 64 p.

Definition toBtcec (k : wire.PubKey) : result N :=
  if (length k =? 64)%nat then Ok (unbe k)
  else Err (errorString "public key is not 64 bytes").

Definition sign (k : N) (h : bytes) : result (N * bytes) :=
  if (k =? 0)%N then Err (errorString "private key is zero")
  else Ok (pubKey k, h).

Definition serialize (s : N * bytes) : bytes := be 8 (fst s) ++ snd s.

Definition parseSignature (bs : bytes) : result (N * bytes) :=
  if (length bs <? 8)%nat then Err (errorString "malformed signature: too short")
  else Ok (unbe (firstn 8 bs), skipn 8 bs).

Definition verifySig (s : N * bytes) (h : bytes) (p : N) : bool :=
  (fst s =? p)%N && bytes_Equal (snd s) h.

Definition encrypt (p : N) (d : bytes) : result bytes :=
  if (400 <? length d)%nat then Err (errorString "plaintext too long")
  else Ok (be 8 p ++ d).

Definition decrypt (k : N) (c : bytes) : result bytes :=
  if (length c <? 8)%nat then Err (errorString "ciphertext too short")
  else if (unbe (firstn 8 c) =? pubKey k)%N then Ok (skipn 8 c)
  else Err ErrInvalidMAC.

Definition tagOf (a : address) : bytes := sum256 (sum512 (addressBytes a)).

Definition v4Key (a : address) : N := unbe (sum512 (x04 :: addressBytes a)).
Definition v5Key (a : address) : N := unbe (sum512 (sum512 (x05 :: addressBytes a))).

Definition newAddress (version stream : N) (ripe : bytes) : result address :=
  if ((version =? 0) || (4 <? version))%N then Err (errorString "unknown address version")
  else if negb (length ripe =? 20)%nat then Err (errorString "ripe hash is not 20 bytes")
  else Ok {| addrVersion := version; addrStream := stream; addrRipe := ripe |}.

Definition newPublic (signKey encKey : N) (behavior : N) (data : pow.Data)
    (version stream : N) : result address :=
  newAddress version stream
    (ripemd (sum512 (serializeUncompressed signKey ++ serializeUncompressed encKey))).

Definition headerEncodeForSigning (W : Type) (H : Writer W) (h : wire.ObjectHeader) (w : W)
    : W * error :=
  Write w (be 8 (Z.to_N (wire.expiration h)) ++ be 4 (wire.ObjectType h) ++
           varint (wire.Version h) ++ varint (wire.StreamNumber h)).

Definition writeElement (W : Type) (H : Writer W) (w : W) (element : bytes) : W * error :=
  Write w element.

Definition readInv (r : Reader) : Reader * result wire.InvVect :=
  match ReadFull r 32 with
  | (r, (_, Some e)) => (r, Err e)
  | (r, (h, None)) => (r, Ok {| wire.Hash := h |})
  end.

Definition objEncodeForSigning (W : Type) (H : Writer W) (m : obj.Broadcast) (w : W)
    : W * error :=
  match m with
  | obj.Tagless m =>
    headerEncodeForSigning W H
      (wire.NewObjectHeader (obj.tl_nonce m) (obj.tl_expiration m) 3 4 (obj.tl_streamNumber m)) w
  | obj.Tagged m =>
    match headerEncodeForSigning W H
            (wire.NewObjectHeader (obj.tg_nonce m) (obj.tg_expiration m) 3 5
               (obj.tg_streamNumber m)) w with
    | (w, Some e) => (w, Some e)
    | (w, None) => Write w (obj.Tag m)
    end
  end.

Definition inRange (m : Bitmessage) : bool :=
  (length (SigningKey m) =? 64)%nat && (length (EncryptionKey m) =? 64)%nat &&
  (Behavior m <? 2 ^ 32)%N &&
  (pow.NonceTrialsPerByte (Pow m) <? 2 ^ 64)%N && (pow.ExtraBytes (Pow m) <? 2 ^ 64)%N &&
  (N.of_nat (length (Body m)) <? 2 ^ 64)%N.

Definition bitmessageBytes (m : Bitmessage) : bytes :=
  SigningKey m ++ EncryptionKey m ++ varint (Behavior m) ++
  varint (pow.NonceTrialsPerByte (Pow m)) ++ varint (pow.ExtraBytes (Pow m)) ++
  varint (N.of_nat (length (Body m))) ++ Body m.

Definition encodeBitmessage (W : Type) (H : Writer W) (m : Bitmessage) (w : W) : W * error :=
  if inRange m then Write w (bitmessageBytes m)
  else (w, Some (errorString "field of the message is out of range")).

Definition decodeBitmessage (r : Reader) : Reader * result Bitmessage :=
  match ReadFull r 64 with
  | (r, (_, Some e)) => (r, Err e)
  | (r, (sk, None)) =>
    match ReadFull r 64 with
    | (r, (_, Some e)) => (r, Err e)
    | (r, (ek, None)) =>
      match readVarInt r with
      | (r, Err e) => (r, Err e)
      | (r, Ok behavior) =>
        match readVarInt r with
        | (r, Err e) => (r, Err e)
        | (r, Ok nonceTrials) =>
          match readVarInt r with
          | (r, Err e) => (r, Err e)
          | (r, Ok extraBytes) =>
            match readVarInt r with
            | (r, Err e) => (r, Err e)
            | (r, Ok n) =>
              match ReadFull r (N.to_nat n) with
              | (r, (_, Some e)) => (r, Err e)
              | (r, (body, None)) =>
                (r, Ok {| SigningKey := sk;
                          EncryptionKey := ek;
                          Pow := {| pow.NonceTrialsPerByte := nonceTrials;
                                    pow.ExtraBytes := extraBytes |};
                          Behavior := behavior;
                          Destination := None;
                          Body := body |})
              end
            end
          end
        end
      end
    end
  end.

#[local] Instance collaborators : Collaborators := {|
  Address := address;
  PrivateKey := N;
  PublicKey := N;
  Signature := N * bytes;
  Public := address;
  Address_Version := addrVersion;
  Address_Stream := addrStream;
  Address_RipeHash := addrRipe;
  Address_String := addressString;
  Tag := tagOf;
  V4BroadcastDecryptionKey := v4Key;
  V5BroadcastDecryptionKey := v5Key;
  WriteVarInt := writeVarInt;
  ReadVarInt := readVarInt;
  DecodeAddress := decodeAddress;
  DecodeWIF := decodeWIF;
  PubKey := pubKey;
  SerializeUncompressed := serializeUncompressed;
  Sign := sign;
  Serialize := serialize;
  ParseSignature := parseSignature;
  Verify := verifySig;
  Encrypt := encrypt;
  Decrypt := decrypt;
  Sum256 := sum256;
  sha1_Sum := sum1;
  sha512_Sum := sum512;
  ripemd160_Sum := ripemd;
  ToBtcec := toBtcec;
  ObjectTypeBroadcast := 3;
  MaxInvPerMsg := 50000;
  Header_EncodeForSigning := headerEncodeForSigning;
  WriteElement := writeElement;
  readInvVect := readInv;
  SignatureMaxLength := 64;
  TaglessBroadcastVersion := 4;
  TaggedBroadcastVersion := 5;
  Broadcast_EncodeForSigning := objEncodeForSigning;
  encodeBroadcast := encodeBitmessage;
  decodeBroadcast := decodeBitmessage;
  NewPublic := newPublic;
  Public_Address := fun a => a;
  createAddress := newAddress |}.

(** A private identity whose address is derived from its keys. *)
Definition alicePriv (signingKey decryptionKey : N) : identity.Private :=
  {| identity.address :=
       match newPublic (pubKey signingKey) (pubKey decryptionKey) 0
               {| pow.NonceTrialsPerByte := 1000; pow.ExtraBytes := 1000 |} 4 1 with
       | Ok a => a
       | Err _ => {| addrVersion := 4; addrStream := 1; addrRipe := [] |}
       end;
     identity.Data := {| pow.NonceTrialsPerByte := 1000; pow.ExtraBytes := 1000 |};
     identity.SigningKey := signingKey;
     identity.DecryptionKey := decryptionKey;
     identity.Behavior := 0 |}.

Definition alice : identity.Private := alicePriv 11 12.
Definition mallory : identity.Private := alicePriv 21 22.

(** The message a private identity broadcasts. *)
Definition messageOf (p : identity.Private) (body : bytes) : Bitmessage :=
  {| SigningKey := be 64 (pubKey (identity.SigningKey p));
     EncryptionKey := be 64 (pubKey (identity.DecryptionKey p));
     Pow := identity.Data p;
     Behavior := 1000;
     Destination := None;
     Body := body |}.

Definition hello : bytes := ["h"; "e"; "l"; "l"; "o"]%byte.

Definition aliceAddress : address := identity.address alice.

Definition emptyTagged : obj.TaggedBroadcast := obj.NewTaggedBroadcast 0 0 0 [] [].

(** The wire object of a [Broadcast], when it is a tagged one. *)
Definition taggedObject (x : cipher.Broadcast * error) : obj.TaggedBroadcast :=
  match cipher.msg (fst x) with
  | Some (obj.Tagged m) => m
  | _ => emptyTagged
  end.

(** The tagged broadcast alice creates. *)
Definition aliceObject : obj.TaggedBroadcast :=
  match snd (cipher.CreateTaggedBroadcast 1000 (messageOf alice hello) (tagOf aliceAddress) alice) with
  | (Some b, _) => taggedObject (b, None)
  | _ => emptyTagged
  end.


(** The bytes alice's broadcast is signed over. *)
Definition signable : bytes :=
  match cipher.encodeForSigning
          {| cipher.msg := Some (obj.Tagged aliceObject);
             cipher.data := messageOf alice hello;
             cipher.signature := [] |} emptyBuffer with
  | Returns (b, _) => Bytes b
  | Panics _ => []
  end.

(** alice's broadcast with a signature made over the legacy hash. *)
Definition legacyBroadcast : cipher.Broadcast :=
  {| cipher.msg := Some (obj.Tagged aliceObject);
     cipher.data := messageOf alice hello;
     cipher.signature := serialize (pubKey (identity.SigningKey alice), sum1 signable) |}.

(** An identity whose signing key the sample [sign] refuses. *)
Definition unsignable : identity.Private := alicePriv 0 12.

Definition addressed : Bitmessage :=
  {| SigningKey := SigningKey (messageOf alice hello);
     EncryptionKey := EncryptionKey (messageOf alice hello);
     Pow := Pow (messageOf alice hello);
     Behavior := 1000;
     Destination := Some (addrRipe aliceAddress);
     Body := hello |}.

(** A decrypted payload whose signature length field says 100, followed by
    100 bytes. *)
Definition overlong : bytes :=
  bitmessageBytes (messageOf alice hello) ++ varint 100 ++ repeat x2a 100.

(** An inv message announcing 50001 vectors. *)
Definition tooManyInv : bytes := varint 50001 ++ repeat x00 64.

End Sample.

(** ** Vocabulary of the specification *)

(** Follows the spec's words: the stored signature checks against a hash when
    it parses and the parsed signature verifies that hash under the key. *)
Definition checksAgainst {C : Collaborators} (sigBytes hash : bytes) (key : PublicKey) : bool :=
  match ParseSignature sigBytes with
  | Ok sig => Verify sig hash key
  | Err _ => false
  end.

(** Modelled from the spec: the two codecs [broadcast.go] calls and does not
    define, [bmutil.WriteVarInt]/[ReadVarInt] and
    [Bitmessage.encodeBroadcast]/[decodeBroadcast].  Written to a
    [bytes.Buffer], an unsigned 64-bit integer and a [Bitmessage] that encodes
    are appended as bytes from which the matching reader reads the value back,
    leaving the rest of the stream; decoding a broadcast's [Bitmessage] gives
    back its caller-visible fields (round trip of the payload encoding). *)
Class CodecLaws (C : Collaborators) : Prop := {
  SignatureMaxLength_uint64 : (SignatureMaxLength < 2 ^ 64)%N;
  varint_roundtrip :
    forall (w : Buffer) (n : N), (n < 2 ^ 64)%N ->
      exists p, WriteVarInt w n = (mkBuffer (Bytes w ++ p), None)
                /\ forall rest, ReadVarInt (p ++ rest) = (rest, Ok n);
  bitmessage_roundtrip :
    forall (w w' : Buffer) (m : Bitmessage), encodeBroadcast m w = (w', None) ->
      exists p, w' = mkBuffer (Bytes w ++ p)
                /\ forall rest, exists m',
                     decodeBroadcast (p ++ rest) = (rest, Ok m')
                     /\ visible m' = visible m }.

(** ** The rest of msginv.go and of the identity file

    What these functions call beyond [Collaborators]. *)
Class MoreCollaborators {C : Collaborators} : Type := {
  (* package wire *)
  writeInvVect : forall (W : Type), Writer W -> W -> wire.InvVect -> W * error;
  maxInvVectPayload : N;
  CmdInv : string;
  (* package bmutil *)
  MaxVarIntSize : N;
  EncodeWIF : PrivateKey -> string }.

Arguments writeInvVect {_ _ W _} w iv.

Module msginv_encode.
Section MsgInvEncode.
Context {C : Collaborators} {D : MoreCollaborators}.

Definition defaultInvListAlloc : N := 1000.

(** The loop of [Encode]: write each vector, stop at the first error. *)
Fixpoint writeInvVects {W : Type} `{Writer W} (ivs : list wire.InvVect) (w : W) : W * error :=
  match ivs with
  | [] => (w, None)
  | iv :: rest =>
    match writeInvVect w iv with
    | (w, Some e) => (w, Some e)
    | (w, None) => writeInvVects rest w
    end
  end.

(** Encode encodes the receiver to w using the bitmessage protocol encoding. *)
Definition Encode {W : Type} `{Writer W} (msg : msginv.MsgInv) (w : W) : W * error :=
  (* Limit to max inventory vectors per message. *)
  let count := N.of_nat (length (msginv.InvList msg)) in
  if (MaxInvPerMsg <? count)%N then
    let str := ("too many invvect in message [" ++ decimal count ++ "]")%string in
    (w, Some (NewMessageError "MsgInv.Encode" str))
  else
    match WriteVarInt w count with
    | (w, Some e) => (w, Some e)
    | (w, None) => writeInvVects (msginv.InvList msg) w
    end.

(** Command returns the protocol command string for the message. *)
Definition Command (msg : msginv.MsgInv) : string := CmdInv.

(** MaxPayloadLength returns the maximum length the payload can be for the
    receiver: a constant expression. *)
Definition MaxPayloadLength (msg : msginv.MsgInv) : N :=
  (* Num inventory vectors (varInt) + max allowed inventory vectors. *)
  (MaxVarIntSize + MaxInvPerMsg * maxInvVectPayload)%N.

(** NewMsgInv returns a new bitmessage inv message. *)
Definition NewMsgInv : M msginv.MsgInv :=
  call (EvMake defaultInvListAlloc) {| msginv.InvList := [] |}.

(** NewMsgInvSizeHint: the size hint is limited to MaxInvPerMsg. *)
Definition NewMsgInvSizeHint (sizeHint : N) : M msginv.MsgInv :=
  (* Limit the specified hint to the maximum allow per message. *)
  let sizeHint := if (MaxInvPerMsg <? sizeHint)%N then MaxInvPerMsg else sizeHint in
  call (EvMake sizeHint) {| msginv.InvList := [] |}.

End MsgInvEncode.
End msginv_encode.

Module identity_export.
Section IdentityExport.
Context {C : Collaborators} {D : MoreCollaborators}.

(** obj.PubKeyData, with the fields [ToPubKeyData] sets. *)
Record PubKeyData : Type := {
  Pow : pow.Data;
  VerificationKey : wire.PubKey;
  EncryptionKey : wire.PubKey;
  Behavior : N }.

(** [copy(key[:], src)] into a zeroed [wire.PubKey] of 64 bytes. *)
Definition copy64 (src : bytes) : wire.PubKey :=
  firstn 64 src ++ repeat x00 (64 - length src).

(** ToPubKeyData turns a Private identity object into PubKeyData type.  The
    slice expression [[1:]] panics on an empty serialization. *)
Definition ToPubKeyData (id : identity.Private) : outcome PubKeyData :=
  match SerializeUncompressed (PubKey (identity.SigningKey id)) with
  | [] => Panics "slice bounds out of range [1:0]"
  | _ :: vk =>
    match SerializeUncompressed (PubKey (identity.DecryptionKey id)) with
    | [] => Panics "slice bounds out of range [1:0]"
    | _ :: ek =>
      Returns {| Pow := {| pow.NonceTrialsPerByte := pow.NonceTrialsPerByte (identity.Data id);
                           pow.ExtraBytes := pow.ExtraBytes (identity.Data id) |};
                 VerificationKey := copy64 vk;
                 EncryptionKey := copy64 ek;
                 Behavior := identity.Behavior id |}
    end
  end.

(** ExportWIF exports a Private identity to WIF: the address, the private
    signing key and the private encryption key. *)
Definition ExportWIF (id : identity.Private) : string * string * string :=
  let address := Address_String (identity.address id) in
  let signingKeyWif := EncodeWIF (identity.SigningKey id) in
  let decryptionKeyWif := EncodeWIF (identity.DecryptionKey id) in
  (address, signingKeyWif, decryptionKeyWif).

End IdentityExport.
End identity_export.

(** Stand-ins for the further collaborators, over the sample ones. *)
Module SampleMore.
Import Sample.

Definition writeInv (W : Type) (H : Writer W) (w : W) (iv : wire.InvVect) : W * error :=
  Write w (wire.Hash iv).

Definition encodeWIF (k : N) : string := decimal k.

#[local] Instance more : MoreCollaborators (C := Sample.collaborators) := {|
  writeInvVect := writeInv;
  maxInvVectPayload := 32;
  CmdInv := "inv";
  MaxVarIntSize := 9;
  EncodeWIF := (encodeWIF : @PrivateKey Sample.collaborators -> string) |}.

Definition inv1 : wire.InvVect := {| wire.Hash := sum256 hello |}.
Definition inv2 : wire.InvVect := {| wire.Hash := sum256 (sum256 hello) |}.
Definition twoInv : msginv.MsgInv := {| msginv.InvList := [inv1; inv2] |}.

(** An inv message announcing three vectors and holding one and a half. *)
Definition truncatedInv : bytes := varint 3 ++ wire.Hash inv1 ++ firstn 16 (wire.Hash inv2).

(** The broadcasts alice creates. *)
Definition emptyBroadcast : cipher.Broadcast :=
  {| cipher.msg := None; cipher.data := messageOf alice []; cipher.signature := [] |}.

Definition aliceTagged : cipher.Broadcast :=
  match snd (cipher.CreateTaggedBroadcast 1000 (messageOf alice hello) (tagOf aliceAddress)
               alice) with
  | (Some b, _) => b
  | _ => emptyBroadcast
  end.

Definition aliceTagless : cipher.Broadcast :=
  match snd (cipher.CreateTaglessBroadcast 1000 (messageOf alice hello) alice) with
  | (Some b, _) => b
  | _ => emptyBroadcast
  end.

(** A decrypted payload with a signature of four bytes and two more bytes. *)
Definition trailing : bytes :=
  bitmessageBytes (messageOf alice hello) ++ varint 4 ++ repeat x2a 6.

(** A decrypted payload announcing a signature of four bytes and holding two. *)
Definition cutShort : bytes :=
  bitmessageBytes (messageOf alice hello) ++ varint 4 ++ repeat x2a 2.

End SampleMore.

(** ** NewHD

    What [NewHD] calls: extended keys of [hdkeychain] and the default POW
    parameters of package pow. *)
Class HDCollaborators {C : Collaborators} : Type := {
  ExtendedKey : Type;                            (* hdkeychain.ExtendedKey *)
  IsPrivate : ExtendedKey -> bool;
  Child : ExtendedKey -> N -> result ExtendedKey;
  ECPrivKey : ExtendedKey -> result PrivateKey;
  HardenedKeyStart : N;
  DefaultNonceTrialsPerByte : N;                 (* pow.DefaultNonceTrialsPerByte *)
  DefaultExtraBytes : N }.

Module identity_hd.
Section IdentityHD.
Context {C : Collaborators} {H : HDCollaborators}.

(** BMPurposeCode is the purpose code used for HD key derivation. *)
Definition BMPurposeCode : N := 0x80000052.

(** Addition of [uint32]. *)
Definition add32 (a b : N) : N := ((a + b) mod 2 ^ 32)%N.

(** The loop of [NewHD] from index [i] on, run for at most [fuel] iterations:
    [None] when it is still running after them.  [signing] is what
    [signKey.ECPrivKey()] returned; its error was dropped, so that after an
    error [id.SigningKey] is nil and [id.hash()] panics, as it does when
    [encKey.ECPrivKey()] fails.  [h[0]] panics on an empty hash.  The loop
    ends with the two keys of [id]. *)
Fixpoint findDecryptionKey (fuel : nat) (a : ExtendedKey) (signing : result PrivateKey)
    (i : N) : option (outcome (PrivateKey * PrivateKey)) :=
  match fuel with
  | O => None
  | S fuel' =>
    match Child a i with
    | Err _ => findDecryptionKey fuel' a signing (add32 i 1)
    | Ok encKey =>
      match signing, ECPrivKey encKey with
      | Ok sk, Ok dk =>
        (* We found our hash! First byte should be zero. *)
        match identity.hashHelper (SerializeUncompressed (PubKey sk))
                                  (SerializeUncompressed (PubKey dk)) with
        | [] => Some (Panics "index out of range [0] with length 0")
        | h0 :: _ =>
          if Byte.eqb h0 x00 then Some (Returns (sk, dk))
          else findDecryptionKey fuel' a signing (add32 i 1)
        end
      | _, _ => Some (Panics "invalid memory address or nil pointer dereference")
      end
    end
  end.

(** NewHD generates a new hierarchically deterministic key based on BIP-BM01,
    and a v4 address based on the specified stream. *)
Definition NewHD (fuel : nat) (masterKey : ExtendedKey) (n stream behavior : N)
    : option (outcome (option identity.Private * error)) :=
  if negb (IsPrivate masterKey) then
    Some (Returns (None, Some (errorString "master key must be private")))
  else
    (* m / purpose' *)
    match Child masterKey BMPurposeCode with
    | Err e => Some (Returns (None, Some e))
    | Ok p =>
      (* m / purpose' / identity' *)
      match Child p (add32 HardenedKeyStart n) with
      | Err e => Some (Returns (None, Some e))
      | Ok i =>
        (* m / purpose' / identity' / stream' *)
        match Child i (add32 HardenedKeyStart stream) with
        | Err e => Some (Returns (None, Some e))
        | Ok s =>
          (* m / purpose' / identity' / stream' / address' *)
          match Child s (add32 HardenedKeyStart 0) with
          | Err e => Some (Returns (None, Some e))
          | Ok a =>
            (* m / purpose' / identity' / stream' / address' / 0 *)
            match Child a 0 with
            | Err e => Some (Returns (None, Some e))
            | Ok signKey =>
              match findDecryptionKey fuel a (ECPrivKey signKey) 1 with
              | None => None
              | Some (Panics msg) => Some (Panics msg)
              | Some (Returns (sk, dk)) =>
                match createAddress 4 stream
                        (identity.hashHelper (SerializeUncompressed (PubKey sk))
                                             (SerializeUncompressed (PubKey dk))) with
                | Err e => Some (Returns (None, Some e))
                | Ok address =>
                  Some (Returns
                    (Some {| identity.address := address;
                             identity.Data :=
                               {| pow.NonceTrialsPerByte := DefaultNonceTrialsPerByte;
                                  pow.ExtraBytes := DefaultExtraBytes |};
                             identity.SigningKey := sk;
                             identity.DecryptionKey := dk;
                             identity.Behavior := behavior |},
                     None))
                end
              end
            end
          end
        end
      end
    end.

(** The loop index [j] iterations after index [i] ([i++] on a [uint32]). *)
Definition indexAfter (i : N) (j : nat) : N := Nat.iter j (fun x => add32 x 1) i.

(** The index [i] does not end the loop: its child cannot be derived, or the
    hash of the keys does not start with a zero byte. *)
Definition passedOver (a : ExtendedKey) (sk : PrivateKey) (i : N) : Prop :=
  (exists e, Child a i = Err e)
  \/ (exists encKey dk h0 h,
        Child a i = Ok encKey /\ ECPrivKey encKey = Ok dk
        /\ identity.hashHelper (SerializeUncompressed (PubKey sk))
                               (SerializeUncompressed (PubKey dk)) = h0 :: h
        /\ h0 <> x00).

End IdentityHD.
End identity_hd.

(** Stand-ins for extended keys: numbers, odd when private; the child 1 of
    any key cannot be derived. *)
Module SampleHD.
Import Sample.

Definition child (k i : N) : result N :=
  if (i =? 1)%N then Err (errorString "invalid child")
  else Ok (2 * ((31 * k + i) mod 1000003) + k mod 2)%N.

Definition ecPrivKey (k : N) : result N :=
  if N.odd k then Ok (k / 2 + 1)%N
  else Err (errorString "unable to create private keys from a public extended key").

#[local] Instance hd : HDCollaborators (C := Sample.collaborators) := {|
  ExtendedKey := N;
  IsPrivate := N.odd;
  Child := child;
  ECPrivKey := (ecPrivKey : N -> result (@PrivateKey Sample.collaborators));
  HardenedKeyStart := 0x80000000;
  DefaultNonceTrialsPerByte := 1000;
  DefaultExtraBytes := 1000 |}.

End SampleHD.

(** The key under which [Encrypt] of an incomplete broadcast encrypts (and
    the matching opening entry point decrypts), and the object it builds
    around a ciphertext: the two implementations of [Encrypt], by cases. *)
Definition incompleteKey {C : Collaborators} (i : cipher.incompleteBroadcast)
    (address : Address) : PrivateKey :=
  match i with
  | cipher.incompleteTaglessBroadcast _ _ => V4BroadcastDecryptionKey address
  | cipher.incompleteTaggedBroadcast _ _ _ => V5BroadcastDecryptionKey address
  end.

Definition completed {C : Collaborators} (i : cipher.incompleteBroadcast)
    (encrypted : bytes) : obj.Broadcast :=
  match i with
  | cipher.incompleteTaglessBroadcast expiration streamNumber =>
    obj.Tagless (obj.NewTaglessBroadcast 0 expiration streamNumber encrypted)
  | cipher.incompleteTaggedBroadcast expiration streamNumber tag =>
    obj.Tagged (obj.NewTaggedBroadcast 0 expiration streamNumber tag encrypted)
  end.

(** * Properties *)

(** ** The trace monad *)

Lemma trace_bind {A B : Type} (c : M A) (k : A -> M B) :
  trace (bind c k) = trace c ++ trace (k (value c)).
Proof.
  destruct c as [t a]. unfold bind, trace, value. simpl.
  destruct (k a) as [t' b]. reflexivity.
Qed.

Lemma value_bind {A B : Type} (c : M A) (k : A -> M B) :
  value (bind c k) = value (k (value c)).
Proof.
  destruct c as [t a]. unfold bind, trace, value. simpl.
  destruct (k a) as [t' b]. reflexivity.
Qed.

Lemma bind_call {A B : Type} (e : event) (a : A) (k : A -> M B) :
  bind (call e a) k = (e :: trace (k a), value (k a)).
Proof. unfold bind, call. destruct (k a); reflexivity. Qed.

Lemma bind_ret {A B : Type} (a : A) (k : A -> M B) : bind (ret a) k = k a.
Proof. unfold bind, ret. destruct (k a); reflexivity. Qed.

(** ** Byte slices *)

Lemma bytes_Equal_true_iff (a b : bytes) : bytes_Equal a b = true <-> a = b.
Proof.
  revert b. induction a as [|x a IH]; intros [|y b]; simpl; split;
    try congruence; try discriminate; auto.
  - intros H. apply andb_true_iff in H as [Hxy Hab].
    apply Byte.byte_dec_bl in Hxy. apply IH in Hab. congruence.
  - intros H. injection H as -> ->. apply andb_true_iff. split.
    + now apply Byte.byte_dec_lb.
    + now apply IH.
Qed.

Lemma bytes_Equal_false_iff (a b : bytes) : bytes_Equal a b = false <-> a <> b.
Proof.
  rewrite <- bytes_Equal_true_iff. destruct (bytes_Equal a b); split; congruence.
Qed.

Lemma ReadFull_app (p rest : bytes) :
  ReadFull (p ++ rest) (length p) = (rest, (p, None)).
Proof.
  unfold ReadFull.
  replace (length (p ++ rest) <? length p)%nat with false.
  - rewrite skipn_app, firstn_app, Nat.sub_diag, skipn_all, firstn_all. simpl.
    now rewrite app_nil_r.
  - symmetry. apply Nat.ltb_ge. rewrite length_app. lia.
Qed.

(** ** crypto/subtle: the comparison yields 1 exactly on equal slices *)

Module subtle_facts.
Import subtle.
Local Open Scope Z_scope.

Lemma byteZ_range (b : byte) : 0 <= byteZ b < 256.
Proof.
  unfold byteZ. pose proof (Byte.to_N_bounded b). lia.
Qed.

Lemma byteZ_inj (a b : byte) : byteZ a = byteZ b -> a = b.
Proof.
  unfold byteZ. intros H. apply N2Z.inj in H.
  pose proof (Byte.of_to_N a) as Ha. rewrite H, Byte.of_to_N in Ha. congruence.
Qed.

Lemma small_log2 (a : Z) : 0 <= a < 256 -> Z.log2 a < 8.
Proof.
  intros H. destruct (Z.eq_dec a 0) as [->|Hn]; [reflexivity|].
  apply Z.log2_lt_pow2; lia.
Qed.

Lemma log2_small (a : Z) : 0 <= a -> Z.log2 a < 8 -> a < 256.
Proof.
  intros H0 H. destruct (Z.eq_dec a 0) as [->|Hn]; [lia|].
  change 256 with (2 ^ 8). apply Z.log2_lt_pow2; lia.
Qed.

Lemma step_range (v a b : Z) :
  0 <= v < 256 -> 0 <= a < 256 -> 0 <= b < 256 ->
  0 <= Z.lor v (Z.lxor a b) < 256.
Proof.
  intros Hv Ha Hb.
  assert (Hx : 0 <= Z.lxor a b) by (apply Z.lxor_nonneg; lia).
  assert (Hl : 0 <= Z.lor v (Z.lxor a b)) by (apply Z.lor_nonneg; lia).
  split; [exact Hl|]. apply log2_small; [exact Hl|].
  rewrite Z.log2_lor by lia.
  pose proof (Z.log2_lxor a b ltac:(lia) ltac:(lia)).
  pose proof (small_log2 v Hv). pose proof (small_log2 a Ha). pose proof (small_log2 b Hb).
  lia.
Qed.

Lemma accumulate_range (x y : bytes) (v : Z) :
  0 <= v < 256 -> 0 <= accumulate v x y < 256.
Proof.
  revert y v. induction x as [|a x IH]; intros [|b y] v Hv; simpl; try exact Hv.
  apply IH. apply step_range; auto using byteZ_range.
Qed.

Lemma accumulate_zero_iff (x y : bytes) (v : Z) :
  length x = length y ->
  (accumulate v x y = 0 <-> v = 0 /\ x = y).
Proof.
  revert y v. induction x as [|a x IH]; intros [|b y] v Hlen; simpl in *;
    try discriminate.
  - intuition.
  - injection Hlen as Hlen. rewrite (IH y _ Hlen), Z.lor_eq_0_iff, Z.lxor_eq_0_iff.
    split.
    + intros [[Hv Hab] Hxy]. apply byteZ_inj in Hab. subst. auto.
    + intros [Hv Heq]. injection Heq as -> ->. auto.
Qed.

Lemma ConstantTimeByteEq_zero (v : Z) :
  0 <= v < 256 -> ConstantTimeByteEq v 0 = if v =? 0 then 1 else 0.
Proof.
  intros Hv. unfold ConstantTimeByteEq. rewrite Z.lxor_0_r.
  destruct (Z.eqb_spec v 0) as [->|Hn]; [reflexivity|].
  rewrite Z.mod_small by lia. rewrite Z.shiftr_div_pow2 by lia.
  apply Z.div_small. change (2 ^ 31) with 2147483648. lia.
Qed.

Lemma ConstantTimeCompare_eq (x y : bytes) :
  ConstantTimeCompare x y = 1 <-> x = y.
Proof.
  unfold ConstantTimeCompare.
  destruct (Nat.eqb_spec (length x) (length y)) as [Hlen|Hlen]; simpl.
  - rewrite ConstantTimeByteEq_zero by (apply accumulate_range; lia).
    pose proof (accumulate_zero_iff x y 0 Hlen) as Hz.
    destruct (Z.eqb_spec (accumulate 0 x y) 0) as [H0|H0].
    + split; [intros _; now apply Hz|reflexivity].
    + split; [discriminate|]. intros ->. exfalso. apply H0. now apply Hz.
  - split; [discriminate|]. intros ->. contradiction.
Qed.

Lemma ConstantTimeCompare_neq (x y : bytes) :
  x <> y -> ConstantTimeCompare x y = 0.
Proof.
  intros Hne. unfold ConstantTimeCompare.
  destruct (Nat.eqb_spec (length x) (length y)) as [Hlen|Hlen]; simpl; [|reflexivity].
  rewrite ConstantTimeByteEq_zero by (apply accumulate_range; lia).
  destruct (Z.eqb_spec (accumulate 0 x y) 0) as [H0|H0]; [|reflexivity].
  exfalso. apply Hne. now apply (accumulate_zero_iff x y 0 Hlen).
Qed.

End subtle_facts.

(** ** The claims *)

Section Claims.
Context {C : Collaborators}.

Lemma newBroadcast_starts_with_decrypt (msg : obj.Broadcast) (key : PrivateKey)
    (address : Address) :
  exists t, trace (cipher.newBroadcast msg key address) = EvDecrypt :: t.
Proof.
  unfold cipher.newBroadcast. rewrite bind_call. eexists. reflexivity.
Qed.

(** C4.  When the cleartext tag of a tagged broadcast differs from the tag
    derived from the address, [NewTaggedBroadcast] returns
    [ErrInvalidIdentity] having done nothing but derive the tag; a decryption
    is attempted exactly when the two tags are equal. *)
Theorem NewTaggedBroadcast_tag_filter (msg : obj.TaggedBroadcast) (address : Address) :
  (obj.Tag msg <> Tag address ->
   cipher.NewTaggedBroadcast msg address
   = ([EvTag], Returns (None, Some ErrInvalidIdentity)))
  /\ (In EvDecrypt (trace (cipher.NewTaggedBroadcast msg address))
      <-> obj.Tag msg = Tag address).
Proof.
  assert (Hne : obj.Tag msg <> Tag address ->
                cipher.NewTaggedBroadcast msg address
                = ([EvTag], Returns (None, Some ErrInvalidIdentity))).
  { intros Hne. unfold cipher.NewTaggedBroadcast. rewrite bind_call.
    rewrite (subtle_facts.ConstantTimeCompare_neq _ _ Hne). reflexivity. }
  split; [exact Hne|]. split.
  - intros Hin. destruct (list_eq_dec Byte.byte_eq_dec (obj.Tag msg) (Tag address))
      as [Heq|Hdiff]; [exact Heq|].
    rewrite (Hne Hdiff) in Hin. simpl in Hin.
    destruct Hin as [Hin|[]]. discriminate Hin.
  - intros Heq. apply subtle_facts.ConstantTimeCompare_eq in Heq.
    unfold cipher.NewTaggedBroadcast. rewrite bind_call, Heq. simpl negb. cbv iota.
    rewrite bind_call. unfold trace at 1. simpl fst.
    rewrite trace_bind.
    destruct (newBroadcast_starts_with_decrypt (obj.Tagged msg)
                (V5BroadcastDecryptionKey address) address) as [t Ht].
    rewrite Ht. simpl. auto.
Qed.

(** C5.  In [newBroadcast] a decryption that fails with [btcec.ErrInvalidMAC]
    is returned as [ErrInvalidIdentity]; a decryption that fails with any other
    error returns that error itself.  Nothing else is attempted. *)
Theorem newBroadcast_decrypt_failure (msg : obj.Broadcast) (key : PrivateKey)
    (address : Address) (e : err) :
  Decrypt key (obj.Encrypted msg) = Err e ->
  (e = ErrInvalidMAC ->
   cipher.newBroadcast msg key address
   = ([EvDecrypt], Returns (None, Some ErrInvalidIdentity)))
  /\ (e <> ErrInvalidMAC ->
      cipher.newBroadcast msg key address = ([EvDecrypt], Returns (None, Some e))).
Proof.
  intros Hdec. unfold cipher.newBroadcast. rewrite bind_call, Hdec. split.
  - intros ->. reflexivity.
  - intros Hne. destruct e; try reflexivity. contradiction.
Qed.

(** C7.  For a [Bitmessage] with a destination both creation entry points
    return the precondition error and no [Broadcast] with an empty trace: no
    hashing, signing or encryption has happened.  Without a destination they
    run [signAndEncrypt] on a fresh [Broadcast] holding the data, and return
    its receiver or its error. *)
Theorem Create_rejects_destination (expiration : Z) (data : Bitmessage) (tag : bytes)
    (private : identity.Private) :
  (Destination data <> None ->
   cipher.CreateTaglessBroadcast expiration data private
   = ([], (None, Some cipher.noDestination))
   /\ cipher.CreateTaggedBroadcast expiration data tag private
      = ([], (None, Some cipher.noDestination)))
  /\ (Destination data = None ->
      let address := identity.Private_Address private in
      let fresh := {| cipher.msg := None; cipher.data := data; cipher.signature := [] |} in
      let finish (x : cipher.Broadcast * error) : option cipher.Broadcast * error :=
        match x with
        | (_, Some e) => (None, Some e)
        | (broadcast, None) => (Some broadcast, None)
        end in
      let tagless :=
        cipher.signAndEncrypt fresh
          (cipher.incompleteTaglessBroadcast expiration (Address_Stream address))
          address private in
      let tagged :=
        cipher.signAndEncrypt fresh
          (cipher.incompleteTaggedBroadcast expiration (Address_Stream address) tag)
          address private in
      cipher.CreateTaglessBroadcast expiration data private
      = (trace tagless, finish (value tagless))
      /\ cipher.CreateTaggedBroadcast expiration data tag private
         = (trace tagged, finish (value tagged))).
Proof.
  split.
  - intros Hd. unfold cipher.CreateTaglessBroadcast, cipher.CreateTaggedBroadcast.
    destruct (Destination data); [split; reflexivity|contradiction].
  - intros Hd. cbv zeta.
    unfold cipher.CreateTaglessBroadcast, cipher.CreateTaggedBroadcast. rewrite Hd.
    split.
    + match goal with |- bind ?c _ = _ => destruct c as [t [b [e|]]] end;
        unfold bind, ret, trace, value; simpl; now rewrite app_nil_r.
    + match goal with |- bind ?c _ = _ => destruct c as [t [b [e|]]] end;
        unfold bind, ret, trace, value; simpl; now rewrite app_nil_r.
Qed.

Lemma readInvVects_trace (n : nat) (msg : msginv.MsgInv) (r : Reader) :
  Forall (fun e => e = EvReadInvVect) (trace (msginv.readInvVects n msg r)).
Proof.
  revert msg r. induction n as [|n IH]; intros msg r; cbn [msginv.readInvVects].
  - constructor.
  - rewrite bind_call. unfold trace at 1. simpl fst. constructor; [reflexivity|].
    destruct (readInvVect r) as [r' [iv|e]]; [apply IH|constructor].
Qed.

Lemma AddInvVect_room (msg : msginv.MsgInv) (iv : wire.InvVect) :
  (N.of_nat (length (msginv.InvList msg)) + 1 <= MaxInvPerMsg)%N ->
  msginv.AddInvVect msg iv = ({| msginv.InvList := msginv.InvList msg ++ [iv] |}, None).
Proof.
  intros H. unfold msginv.AddInvVect. apply N.ltb_ge in H. now rewrite H.
Qed.

(** Within the limit every [AddInvVect] of the loop succeeds, so dropping its
    result loses nothing: a successful loop has added [n] vectors. *)
Lemma readInvVects_length (n : nat) (msg msg' : msginv.MsgInv) (r r' : Reader) :
  (N.of_nat (length (msginv.InvList msg) + n) <= MaxInvPerMsg)%N ->
  value (msginv.readInvVects n msg r) = (msg', r', None) ->
  length (msginv.InvList msg') = (length (msginv.InvList msg) + n)%nat.
Proof.
  revert msg r. induction n as [|n IH]; intros msg r Hroom; cbn [msginv.readInvVects].
  - unfold value, ret. simpl. intros H. injection H as <- _. lia.
  - rewrite value_bind. unfold value at 2, call. simpl snd.
    destruct (readInvVect r) as [r1 [iv|e]]; [|unfold value, ret; simpl; discriminate].
    rewrite AddInvVect_room by lia. simpl fst. intros H.
    apply IH in H.
    + rewrite H. simpl. rewrite length_app. simpl. lia.
    + simpl. rewrite length_app. simpl. lia.
Qed.

(** C9.  When the count read by [MsgInv.Decode] exceeds [MaxInvPerMsg], the
    call returns the message error with an empty trace: no list was made and
    no inventory vector was read; the reader stands right after the count and
    the message is as it was.  In every run a list is made only with a
    capacity within the limit, and vectors are read only after it was made. *)
Theorem Decode_rejects_count (msg : msginv.MsgInv) (r : Reader) :
  (forall r' count,
     ReadVarInt r = (r', Ok count) ->
     (MaxInvPerMsg < count)%N ->
     msginv.Decode msg r
     = ([], (msg, r',
             Some (MessageError "MsgInv.Decode"
                     ("too many invvect in message [" ++ decimal count ++ "]")%string))))
  /\ (forall n, In (EvMake n) (trace (msginv.Decode msg r)) -> (n <= MaxInvPerMsg)%N)
  /\ (In EvReadInvVect (trace (msginv.Decode msg r)) ->
      exists n t, trace (msginv.Decode msg r) = EvMake n :: t /\ (n <= MaxInvPerMsg)%N).
Proof.
  unfold msginv.Decode. split; [|split].
  - intros r' count Hread Hmax. rewrite Hread.
    apply N.ltb_lt in Hmax. rewrite Hmax. reflexivity.
  - intros n. destruct (ReadVarInt r) as [r' [count|e]]; [|intros []].
    destruct (N.ltb_spec MaxInvPerMsg count) as [Hgt|Hle]; [intros []|].
    rewrite bind_call. unfold trace at 1. simpl fst. intros [Heq|Hin].
    + injection Heq as <-. exact Hle.
    + pose proof (readInvVects_trace (N.to_nat count) {| msginv.InvList := [] |} r') as Hall.
      rewrite Forall_forall in Hall. apply Hall in Hin. discriminate Hin.
  - destruct (ReadVarInt r) as [r' [count|e]]; [|intros []].
    destruct (N.ltb_spec MaxInvPerMsg count) as [Hgt|Hle]; [intros []|].
    rewrite bind_call. unfold trace at 1 2. simpl fst. intros _.
    eexists. eexists. split; [reflexivity|exact Hle].
Qed.

(** A [Decode] that returns nil has read exactly as many vectors as the count
    announced. *)
Lemma Decode_reads_count (msg msg' : msginv.MsgInv) (r r1 r' : Reader) (count : N) :
  ReadVarInt r = (r1, Ok count) ->
  value (msginv.Decode msg r) = (msg', r', None) ->
  length (msginv.InvList msg') = N.to_nat count.
Proof.
  intros Hread. unfold msginv.Decode. rewrite Hread.
  destruct (N.ltb_spec MaxInvPerMsg count) as [Hgt|Hle];
    [unfold value, ret; simpl; discriminate|].
  rewrite value_bind. unfold value at 2, call. simpl snd. intros H.
  apply readInvVects_length in H; simpl in *; [exact H|lia].
Qed.

(** C10.  When [ImportWIF] returns an identity, its error is nil, and the
    address made from the imported keys with the version and stream of the
    decoded address has the ripe hash of the decoded address; when those ripe
    hashes differ, [ImportWIF] returns no identity and an error. *)
Theorem ImportWIF_checks_ripe (addressStr signingKeyWif decryptionKeyWif : string)
    (nonceTrials extraBytes : N) :
  let derived (addr : Address) (sk dk : PrivateKey) :=
    createAddress (Address_Version addr) (Address_Stream addr)
      (identity.hashHelper (SerializeUncompressed (PubKey sk))
                           (SerializeUncompressed (PubKey dk))) in
  (forall priv : identity.Private,
     fst (identity.ImportWIF addressStr signingKeyWif decryptionKeyWif
            nonceTrials extraBytes) = Some priv ->
     snd (identity.ImportWIF addressStr signingKeyWif decryptionKeyWif
            nonceTrials extraBytes) = None
     /\ exists addr,
          DecodeAddress addressStr = Ok addr
          /\ DecodeWIF signingKeyWif = Ok (identity.SigningKey priv)
          /\ DecodeWIF decryptionKeyWif = Ok (identity.DecryptionKey priv)
          /\ derived addr (identity.SigningKey priv) (identity.DecryptionKey priv)
             = Ok (identity.address priv)
          /\ Address_RipeHash (identity.address priv) = Address_RipeHash addr)
  /\ (forall addr sk dk rederived,
        DecodeAddress addressStr = Ok addr ->
        DecodeWIF signingKeyWif = Ok sk ->
        DecodeWIF decryptionKeyWif = Ok dk ->
        derived addr sk dk = Ok rederived ->
        Address_RipeHash rederived <> Address_RipeHash addr ->
        identity.ImportWIF addressStr signingKeyWif decryptionKeyWif
          nonceTrials extraBytes
        = (None, Some (errorString "address does not correspond to private keys"))).
Proof.
  cbv zeta. unfold identity.ImportWIF, identity.hash. split.
  - intros priv.
    destruct (DecodeAddress addressStr) as [addr|e]; [|discriminate].
    destruct (DecodeWIF signingKeyWif) as [sk|e]; [|discriminate].
    destruct (DecodeWIF decryptionKeyWif) as [dk|e]; [|discriminate].
    simpl.
    destruct (createAddress _ _ _) as [a|e] eqn:Hcreate; [|discriminate].
    simpl.
    destruct (bytes_Equal (Address_RipeHash a) (Address_RipeHash addr)) eqn:Heq;
      simpl; [|discriminate].
    intros H. injection H as <-. simpl. split; [reflexivity|].
    exists addr. apply bytes_Equal_true_iff in Heq. auto.
  - intros addr sk dk rederived -> -> ->. simpl. intros -> Hne. simpl.
    apply bytes_Equal_false_iff in Hne. rewrite Hne. reflexivity.
Qed.



(** C6.  Once the [Bitmessage] and the signature length are read, a length
    above [SignatureMaxLength] makes [decodeFromDecrypted] fail with the
    message error, whatever bytes [r2] are left in the stream. *)
Theorem decodeFromDecrypted_signature_bound (msg0 : option obj.Broadcast)
    (r r1 r2 : Reader) (data : Bitmessage) (sigLength : N) :
  decodeBroadcast r = (r1, Ok data) ->
  ReadVarInt r1 = (r2, Ok sigLength) ->
  (SignatureMaxLength < sigLength)%N ->
  cipher.decodeFromDecrypted msg0 r
  = (r2, Err (MessageError "DecodeFromDecrypted"
                ("signature length exceeds max length - indicates " ++
                 decimal sigLength ++ ", but max length is " ++
                 decimal SignatureMaxLength)%string)).
Proof.
  intros Hdata Hlen Hmax. unfold cipher.decodeFromDecrypted.
  rewrite Hdata, Hlen. apply N.ltb_lt in Hmax. rewrite Hmax. reflexivity.
Qed.

(** C3.  Past the address check, [verify] hashes the signable bytes with
    SHA-256 and SHA-1 and checks the stored signature against the SHA-256 hash
    first, against the SHA-1 hash only when that fails.  It returns
    [ErrInvalidSignature] exactly when the signature checks against neither
    hash, and nil as soon as it checks against one: a signature good only
    for the legacy hash verifies. *)
Theorem verify_signature_fallback (broadcast : cipher.Broadcast) (address : Address)
    (m : obj.Broadcast) (signKey encKey : PublicKey) (id : Public) (b : Buffer) :
  cipher.msg broadcast = Some m ->
  ToBtcec (SigningKey (cipher.data broadcast)) = Ok signKey ->
  ToBtcec (EncryptionKey (cipher.data broadcast)) = Ok encKey ->
  NewPublic signKey encKey (Behavior (cipher.data broadcast)) (Pow (cipher.data broadcast))
    (Address_Version address) (Address_Stream address) = Ok id ->
  Address_String (Public_Address id) = Address_String address ->
  cipher.encodeForSigning broadcast emptyBuffer = Returns (b, None) ->
  let h256 := Sum256 (Bytes b) in
  let h1 := sha1_Sum (Bytes b) in
  let primary := checksAgainst (cipher.signature broadcast) h256 signKey in
  let legacy := checksAgainst (cipher.signature broadcast) h1 signKey in
  (value (cipher.verify broadcast address) = Returns (Some ErrInvalidSignature)
   <-> primary = false /\ legacy = false)
  /\ (value (cipher.verify broadcast address) = Returns None
      <-> primary = true \/ legacy = true)
  /\ (forall sig, ParseSignature (cipher.signature broadcast) = Ok sig ->
      trace (cipher.verify broadcast address)
      = [EvSHA256; EvSHA1; EvParseSignature; EvVerify h256]
        ++ (if primary then [] else [EvVerify h1])).
Proof.
  intros Hmsg Hs He Hid Haddr Henc h256 h1 primary legacy.
  subst primary legacy h256 h1. unfold checksAgainst, cipher.verify.
  rewrite Hmsg, Hs, He, Hid, Haddr, String.eqb_refl, Henc. simpl negb. cbv iota.
  rewrite !bind_call. unfold value, trace. simpl fst. simpl snd.
  destruct (ParseSignature (cipher.signature broadcast)) as [sig|e].
  - destruct (Verify sig (Sum256 (Bytes b)) signKey);
      [|destruct (Verify sig (sha1_Sum (Bytes b)) signKey)];
      simpl; repeat split; intros; try reflexivity;
      intuition (try discriminate; try reflexivity).
  - simpl; repeat split; intros; try reflexivity;
      intuition (try discriminate; try reflexivity).
Qed.

(** C8 (as the code has it).  [signAndEncrypt] stops at the first failing
    step.  An error of either encoding step is returned as it is; an error of
    signing or of encrypting is returned inside a new error whose text starts
    with "signing failed: " or "encryption failed: ".  The creation entry
    points return the error of [signAndEncrypt] as it is, and no [Broadcast]
    whenever they return an error. *)
Theorem signAndEncrypt_failure (broadcast : cipher.Broadcast)
    (i : cipher.incompleteBroadcast) (address : Address) (private : identity.Private) :
  let encoded := cipher.broadcastEncodeForSigning emptyBuffer i (cipher.data broadcast) in
  let signed (sig : Signature) :=
    {| cipher.msg := cipher.msg broadcast;
       cipher.data := cipher.data broadcast;
       cipher.signature := Serialize sig |} in
  (forall b e, encoded = (b, Some e) ->
     cipher.signAndEncrypt broadcast i address private = ([], (broadcast, Some e)))
  /\ (forall b e, encoded = (b, None) ->
      Sign (identity.SigningKey private) (Sum256 (Bytes b)) = Err e ->
      cipher.signAndEncrypt broadcast i address private
      = ([EvSHA256; EvSign], (broadcast, Some (errorPrefixed "signing failed: " e))))
  /\ (forall b sig b' e, encoded = (b, None) ->
      Sign (identity.SigningKey private) (Sum256 (Bytes b)) = Ok sig ->
      cipher.encodeForEncryption (signed sig) emptyBuffer = (b', Some e) ->
      cipher.signAndEncrypt broadcast i address private
      = ([EvSHA256; EvSign], (signed sig, Some e)))
  /\ (forall b sig b' e, encoded = (b, None) ->
      Sign (identity.SigningKey private) (Sum256 (Bytes b)) = Ok sig ->
      cipher.encodeForEncryption (signed sig) emptyBuffer = (b', None) ->
      snd (value (cipher.Encrypt_incomplete i address (Bytes b'))) = Some e ->
      snd (value (cipher.signAndEncrypt broadcast i address private))
      = Some (errorPrefixed "encryption failed: " e))
  /\ (forall (expiration : Z) (data : Bitmessage) (tag : bytes),
      let fresh := {| cipher.msg := None; cipher.data := data; cipher.signature := [] |} in
      let stream := Address_Stream (identity.Private_Address private) in
      (forall e, Destination data = None ->
         snd (value (cipher.signAndEncrypt fresh
                       (cipher.incompleteTaglessBroadcast expiration stream)
                       (identity.Private_Address private) private)) = Some e ->
         value (cipher.CreateTaglessBroadcast expiration data private) = (None, Some e))
      /\ (forall e, Destination data = None ->
          snd (value (cipher.signAndEncrypt fresh
                        (cipher.incompleteTaggedBroadcast expiration stream tag)
                        (identity.Private_Address private) private)) = Some e ->
          value (cipher.CreateTaggedBroadcast expiration data tag private) = (None, Some e))
      /\ (snd (value (cipher.CreateTaglessBroadcast expiration data private)) <> None ->
          fst (value (cipher.CreateTaglessBroadcast expiration data private)) = None)
      /\ (snd (value (cipher.CreateTaggedBroadcast expiration data tag private)) <> None ->
          fst (value (cipher.CreateTaggedBroadcast expiration data tag private)) = None)).
Proof.
  cbv zeta. unfold cipher.signAndEncrypt.
  split; [|split; [|split; [|split]]].
  - intros b e ->. reflexivity.
  - intros b e -> Hsign. rewrite !bind_call, Hsign. reflexivity.
  - intros b sig b' e -> Hsign Henc. rewrite !bind_call, Hsign.
    change (Buffer_Reset b) with emptyBuffer. rewrite Henc. reflexivity.
  - intros b sig b' e -> Hsign Henc Hcrypt. rewrite !bind_call, Hsign.
    change (Buffer_Reset b) with emptyBuffer. rewrite Henc.
    unfold value at 1. simpl snd. rewrite value_bind.
    unfold value in Hcrypt |- *. rewrite Hcrypt. reflexivity.
  - intros expiration data tag.
    unfold cipher.CreateTaglessBroadcast, cipher.CreateTaggedBroadcast.
    fold (cipher.signAndEncrypt
            {| cipher.msg := None; cipher.data := data; cipher.signature := [] |}
            (cipher.incompleteTaglessBroadcast expiration
               (Address_Stream (identity.Private_Address private)))
            (identity.Private_Address private) private).
    fold (cipher.signAndEncrypt
            {| cipher.msg := None; cipher.data := data; cipher.signature := [] |}
            (cipher.incompleteTaggedBroadcast expiration
               (Address_Stream (identity.Private_Address private)) tag)
            (identity.Private_Address private) private).
    repeat split.
    + intros e -> H. rewrite value_bind.
      destruct (value (cipher.signAndEncrypt _ _ _ _)) as [x [e'|]]; simpl in *;
        congruence.
    + intros e -> H. rewrite value_bind.
      destruct (value (cipher.signAndEncrypt _ _ _ _)) as [x [e'|]]; simpl in *;
        congruence.
    + destruct (Destination data); [reflexivity|]. rewrite value_bind.
      destruct (value (cipher.signAndEncrypt _ _ _ _)) as [x [e'|]]; simpl;
        congruence.
    + destruct (Destination data); [reflexivity|]. rewrite value_bind.
      destruct (value (cipher.signAndEncrypt _ _ _ _)) as [x [e'|]]; simpl;
        congruence.
Qed.

(** C2.  For a [Broadcast] whose signature is no longer than
    [SignatureMaxLength] and whose data encodes, [encodeForEncryption] into an
    empty buffer succeeds, and [decodeFromDecrypted] reads the whole of what
    was written back into a [Broadcast] with the same keys, pow, behavior and
    body, and the same signature. *)
Theorem encodeForEncryption_roundtrip {L : CodecLaws C} (broadcast : cipher.Broadcast)
    (msg0 : option obj.Broadcast) :
  (N.of_nat (length (cipher.signature broadcast)) <= SignatureMaxLength)%N ->
  (exists w, encodeBroadcast (cipher.data broadcast) emptyBuffer = (w, None)) ->
  exists out decoded,
    cipher.encodeForEncryption broadcast emptyBuffer = (out, None)
    /\ cipher.decodeFromDecrypted msg0 (Bytes out) = ([], Ok decoded)
    /\ visible (cipher.data decoded) = visible (cipher.data broadcast)
    /\ cipher.signature decoded = cipher.signature broadcast
    /\ cipher.msg decoded = msg0.
Proof.
  intros Hlen [w Hw].
  pose proof SignatureMaxLength_uint64 as Hmax.
  destruct (bitmessage_roundtrip _ _ _ Hw) as [p1 [-> Hdec]].
  destruct (varint_roundtrip (mkBuffer (Bytes emptyBuffer ++ p1))
              (N.of_nat (length (cipher.signature broadcast)))) as [p2 [Hwv Hrv]];
    [lia|].
  simpl Bytes in *.
  exists (mkBuffer ((p1 ++ p2) ++ cipher.signature broadcast)).
  destruct (Hdec (p2 ++ cipher.signature broadcast)) as [m' [Hm' Hvis]].
  exists {| cipher.msg := msg0; cipher.data := m';
            cipher.signature := cipher.signature broadcast |}.
  split; [|split; [|auto]].
  - unfold cipher.encodeForEncryption. rewrite Hw, Hwv. reflexivity.
  - unfold cipher.decodeFromDecrypted. simpl Bytes. rewrite <- app_assoc.
    rewrite Hm', Hrv.
    apply N.ltb_ge in Hlen. rewrite Hlen, Nat2N.id.
    rewrite <- (app_nil_r (cipher.signature broadcast)) at 1.
    rewrite ReadFull_app. reflexivity.
Qed.

End Claims.

(** ** The sample collaborators satisfy the codec laws *)

Module Sample_facts.
Import Sample.
Local Open Scope N_scope.

Lemma to_N_byte_of (n : N) : Byte.to_N (byte_of n) = n mod 256.
Proof.
  unfold byte_of. destruct (Byte.of_N (n mod 256)) as [b|] eqn:H.
  - now apply Byte.to_of_N in H.
  - apply Byte.of_N_None_iff in H.
    pose proof (N.mod_upper_bound n 256 ltac:(discriminate)). lia.
Qed.

Lemma length_be (k : nat) (n : N) : length (be k n) = k.
Proof. induction k as [|k IH]; simpl; congruence. Qed.

Lemma fold_be (k : nat) (n acc : N) :
  fold_left (fun a b => a * 256 + Byte.to_N b) (be k n) acc
  = acc * 256 ^ N.of_nat k + n mod 256 ^ N.of_nat k.
Proof.
  revert acc. induction k as [|k IH]; intros acc.
  - simpl. rewrite N.mod_1_r. lia.
  - cbn [be fold_left]. rewrite IH, to_N_byte_of, Nat2N.inj_succ, N.pow_succ_r'.
    rewrite (N.mul_comm 256 (256 ^ N.of_nat k)), N.Div0.mod_mul_r. lia.
Qed.

Lemma unbe_be (k : nat) (n : N) : n < 256 ^ N.of_nat k -> unbe (be k n) = n.
Proof.
  intros H. unfold unbe. rewrite fold_be, N.mod_small by exact H. lia.
Qed.

Lemma readVarInt_marker (m : byte) (k : nat) (bs rest : bytes) :
  length bs = k ->
  (Byte.to_N m <? 253) = false ->
  k = (if Byte.to_N m =? 253 then 2%nat else if Byte.to_N m =? 254 then 4%nat else 8%nat) ->
  readVarInt (m :: bs ++ rest) = (rest, Ok (unbe bs)).
Proof.
  intros Hlen Hm Hk. unfold readVarInt. rewrite Hm, <- Hk, <- Hlen.
  replace (length (bs ++ rest) <? length bs)%nat with false.
  - rewrite skipn_app, firstn_app, Nat.sub_diag, skipn_all, firstn_all. simpl.
    now rewrite app_nil_r.
  - symmetry. apply Nat.ltb_ge. rewrite length_app. lia.
Qed.

Lemma readVarInt_varint (n : N) (rest : bytes) :
  n < 2 ^ 64 -> readVarInt (varint n ++ rest) = (rest, Ok n).
Proof.
  intros Hn. unfold varint.
  destruct (N.ltb_spec n 253) as [H1|H1].
  - simpl. rewrite to_N_byte_of, N.mod_small by lia.
    apply N.ltb_lt in H1. now rewrite H1.
  - assert (Hk : forall (m : byte) (k : nat),
               (Byte.to_N m <? 253) = false ->
               k = (if Byte.to_N m =? 253 then 2%nat
                    else if Byte.to_N m =? 254 then 4%nat else 8%nat) ->
               n < 256 ^ N.of_nat k ->
               readVarInt ((m :: be k n) ++ rest) = (rest, Ok n)).
    { intros m k Hm Hkm Hlt. rewrite <- app_comm_cons.
      rewrite (readVarInt_marker m k); auto using length_be.
      now rewrite unbe_be. }
    destruct (N.leb_spec n 65535) as [H2|H2];
      [|destruct (N.leb_spec n 4294967295) as [H3|H3]];
      apply Hk; try reflexivity; simpl N.of_nat; lia.
Qed.

Lemma ReadFull_exact (p rest : bytes) (n : nat) :
  length p = n -> ReadFull (p ++ rest) n = (rest, (p, None)).
Proof. intros <-. apply ReadFull_app. Qed.

Lemma decodeBitmessage_bitmessageBytes (m : Bitmessage) (rest : bytes) :
  inRange m = true ->
  exists m', decodeBitmessage (bitmessageBytes m ++ rest) = (rest, Ok m')
             /\ visible m' = visible m.
Proof.
  unfold inRange. rewrite !andb_true_iff.
  intros [[[[[Hs He] Hb] Hn] Hx] Hl].
  apply Nat.eqb_eq in Hs, He. apply N.ltb_lt in Hb, Hn, Hx, Hl.
  eexists. split.
  - unfold decodeBitmessage, bitmessageBytes. rewrite <- !app_assoc.
    rewrite (ReadFull_exact _ _ 64 Hs), (ReadFull_exact _ _ 64 He).
    rewrite !readVarInt_varint by (try assumption; lia).
    rewrite Nat2N.id, ReadFull_app. reflexivity.
  - destruct m as [sk ek [nt xb] bh d body]. reflexivity.
Qed.

Lemma laws : CodecLaws collaborators.
Proof.
  constructor.
  - reflexivity.
  - intros w n Hn. exists (varint n). split; [reflexivity|].
    intros rest. now apply readVarInt_varint.
  - intros w w' m. cbn [encodeBroadcast collaborators]. unfold encodeBitmessage.
    destruct (inRange m) eqn:Hr; [|discriminate].
    intros H. injection H as <-. exists (bitmessageBytes m). split; [reflexivity|].
    intros rest. now apply decodeBitmessage_bitmessageBytes.
Qed.

End Sample_facts.

(** ** The claims on the sample collaborators *)

Section Runs.
Import Sample.
#[local] Existing Instance Sample.collaborators.

(** End to end: the tagged broadcast alice creates opens under her address
    into her message, after one signature check against the SHA-256 hash. *)
Example create_then_open :
  exists b,
    cipher.NewTaggedBroadcast aliceObject aliceAddress
    = ([EvTag; EvBroadcastDecryptionKey; EvDecrypt; EvSHA256; EvSHA1;
        EvParseSignature; EvVerify (Sum256 signable)],
       Returns (Some b, None))
    /\ cipher.data b = messageOf alice hello
    /\ cipher.msg b = Some (obj.Tagged aliceObject).
Proof.
  eexists. split; [vm_compute; reflexivity|]. split; vm_compute; reflexivity.
Qed.


Lemma encodeForEncryption_roundtrip_witness :
  exists out decoded,
    cipher.encodeForEncryption legacyBroadcast emptyBuffer = (out, None)
    /\ cipher.decodeFromDecrypted None (Bytes out) = ([], Ok decoded)
    /\ visible (cipher.data decoded) = visible (cipher.data legacyBroadcast)
    /\ cipher.signature decoded = cipher.signature legacyBroadcast
    /\ cipher.msg decoded = None.
Proof.
  apply (encodeForEncryption_roundtrip (L := Sample_facts.laws) legacyBroadcast None).
  - apply N.leb_le. vm_compute. reflexivity.
  - eexists. vm_compute. reflexivity.
Defined.

Lemma verify_signature_fallback_witness :
  checksAgainst (cipher.signature legacyBroadcast) (Sum256 signable)
    (pubKey (identity.SigningKey alice)) = false
  /\ checksAgainst (cipher.signature legacyBroadcast) (sha1_Sum signable)
       (pubKey (identity.SigningKey alice)) = true
  /\ value (cipher.verify legacyBroadcast aliceAddress) = Returns None.
Proof.
  split; [vm_compute; reflexivity|]. split; [vm_compute; reflexivity|].
  eapply (verify_signature_fallback (C := Sample.collaborators)
            legacyBroadcast aliceAddress).
  - reflexivity.
  - vm_compute; reflexivity.
  - vm_compute; reflexivity.
  - vm_compute; reflexivity.
  - vm_compute; reflexivity.
  - vm_compute; reflexivity.
  - right. vm_compute. reflexivity.
Defined.

Lemma NewTaggedBroadcast_tag_filter_witness :
  cipher.NewTaggedBroadcast aliceObject (identity.address mallory)
  = ([EvTag], Returns (None, Some ErrInvalidIdentity)).
Proof.
  apply (proj1 (NewTaggedBroadcast_tag_filter aliceObject (identity.address mallory))).
  vm_compute. discriminate.
Defined.

Lemma newBroadcast_decrypt_failure_witness :
  cipher.newBroadcast (obj.Tagged aliceObject)
    (V5BroadcastDecryptionKey (identity.address mallory)) aliceAddress
  = ([EvDecrypt], Returns (None, Some ErrInvalidIdentity))
  /\ cipher.newBroadcast (obj.Tagged emptyTagged)
       (V5BroadcastDecryptionKey aliceAddress) aliceAddress
     = ([EvDecrypt], Returns (None, Some (errorString "ciphertext too short"))).
Proof.
  split.
  - apply (proj1 (newBroadcast_decrypt_failure (C := Sample.collaborators)
                    (obj.Tagged aliceObject) (v5Key (identity.address mallory)) aliceAddress
                    ErrInvalidMAC ltac:(vm_compute; reflexivity))).
    reflexivity.
  - apply (proj2 (newBroadcast_decrypt_failure (C := Sample.collaborators)
                    (obj.Tagged emptyTagged) (v5Key aliceAddress) aliceAddress
                    (errorString "ciphertext too short") ltac:(vm_compute; reflexivity))).
    discriminate.
Defined.

Lemma decodeFromDecrypted_signature_bound_witness :
  cipher.decodeFromDecrypted None overlong
  = (repeat x2a 100,
     Err (MessageError "DecodeFromDecrypted"
            "signature length exceeds max length - indicates 100, but max length is 64")).
Proof.
  exact (decodeFromDecrypted_signature_bound (C := Sample.collaborators) None overlong
           (varint 100 ++ repeat x2a 100) (repeat x2a 100)
           (messageOf alice hello) 100
           ltac:(vm_compute; reflexivity) ltac:(vm_compute; reflexivity) eq_refl).
Defined.

Lemma Create_rejects_destination_witness :
  cipher.CreateTaglessBroadcast 1000 addressed alice
  = ([], (None, Some (errorString "Broadcasts do not have a destination.")))
  /\ cipher.CreateTaggedBroadcast 1000 addressed (tagOf aliceAddress) alice
     = ([], (None, Some (errorString "Broadcasts do not have a destination."))).
Proof.
  apply (proj1 (Create_rejects_destination 1000 addressed (tagOf aliceAddress) alice)).
  discriminate.
Defined.

(** With a signing key the sample [sign] refuses, the error returned by the
    creation entry point is not the error [Sign] returned. *)
Lemma signing_error_is_not_returned_unchanged :
  exists b e,
    cipher.broadcastEncodeForSigning emptyBuffer
      (cipher.incompleteTaglessBroadcast 1000 (Address_Stream (identity.address unsignable)))
      (messageOf unsignable hello) = (b, None)
    /\ Sign (identity.SigningKey unsignable) (Sum256 (Bytes b)) = Err e
    /\ value (cipher.CreateTaglessBroadcast 1000 (messageOf unsignable hello) unsignable)
       = (None, Some (errorPrefixed "signing failed: " e))
    /\ errorPrefixed "signing failed: " e <> e.
Proof.
  do 2 eexists.
  split; [vm_compute; reflexivity|].
  split; [vm_compute; reflexivity|].
  split; [vm_compute; reflexivity|discriminate].
Qed.

Lemma signAndEncrypt_failure_witness :
  cipher.signAndEncrypt
    {| cipher.msg := None; cipher.data := messageOf unsignable hello; cipher.signature := [] |}
    (cipher.incompleteTaglessBroadcast 1000 1) (identity.address unsignable) unsignable
  = ([EvSHA256; EvSign],
     ({| cipher.msg := None; cipher.data := messageOf unsignable hello;
         cipher.signature := [] |},
      Some (errorPrefixed "signing failed: " (errorString "private key is zero"))))
  /\ snd (value (cipher.signAndEncrypt
                   {| cipher.msg := None; cipher.data := messageOf alice (repeat x00 401);
                      cipher.signature := [] |}
                   (cipher.incompleteTaglessBroadcast 1000 1) aliceAddress alice))
     = Some (errorPrefixed "encryption failed: " (errorString "plaintext too long")).
Proof.
  split.
  - eapply (proj1 (proj2 (signAndEncrypt_failure _ _ _ _))).
    + vm_compute; reflexivity.
    + vm_compute; reflexivity.
  - eapply (proj1 (proj2 (proj2 (proj2 (signAndEncrypt_failure _ _ _ _))))).
    + vm_compute; reflexivity.
    + vm_compute; reflexivity.
    + vm_compute; reflexivity.
    + vm_compute; reflexivity.
Defined.

Lemma Decode_rejects_count_witness :
  msginv.Decode {| msginv.InvList := [] |} tooManyInv
  = ([], ({| msginv.InvList := [] |}, repeat x00 64,
          Some (MessageError "MsgInv.Decode" "too many invvect in message [50001]"))).
Proof.
  apply (proj1 (Decode_rejects_count (C := Sample.collaborators)
                  {| msginv.InvList := [] |} tooManyInv) (repeat x00 64) 50001%N).
  - vm_compute; reflexivity.
  - reflexivity.
Defined.

Lemma ImportWIF_checks_ripe_witness :
  snd (identity.ImportWIF (addressString aliceAddress) "11" "12" 1000 1000) = None
  /\ identity.ImportWIF (addressString aliceAddress) "11" "13" 1000 1000
     = (None, Some (errorString "address does not correspond to private keys")).
Proof.
  split.
  - refine (proj1 (proj1 (ImportWIF_checks_ripe (C := Sample.collaborators)
                            (addressString aliceAddress) "11" "12" 1000 1000)
                     alice _)).
    reflexivity.
  - refine (proj2 (ImportWIF_checks_ripe (C := Sample.collaborators)
                     (addressString aliceAddress) "11" "13" 1000 1000)
              aliceAddress 11%N 13%N (identity.address (alicePriv 11 13)) _ _ _ _ _).
    + vm_compute; reflexivity.
    + vm_compute; reflexivity.
    + vm_compute; reflexivity.
    + vm_compute; reflexivity.
    + vm_compute; discriminate.
Defined.

End Runs.

(** * Further properties *)

(** ** MsgInv: building, encoding and decoding *)

Section MsgInvFacts.
Context {C : Collaborators} {D : MoreCollaborators}.

(** Offering vectors one after the other, dropping the errors. *)
Lemma AddInvVect_fold (ivs : list wire.InvVect) (m : msginv.MsgInv) :
  (N.of_nat (length (msginv.InvList m)) <= MaxInvPerMsg)%N ->
  msginv.InvList (fold_left (fun m iv => fst (msginv.AddInvVect m iv)) ivs m)
  = msginv.InvList m
    ++ firstn (N.to_nat MaxInvPerMsg - length (msginv.InvList m)) ivs.
Proof.
  revert m. induction ivs as [|iv ivs IH]; intros m Hm; simpl.
  - now rewrite firstn_nil, app_nil_r.
  - unfold msginv.AddInvVect at 2.
    destruct (N.ltb_spec MaxInvPerMsg (N.of_nat (length (msginv.InvList m)) + 1))
      as [Hfull|Hroom]; simpl fst.
    + rewrite IH by exact Hm.
      replace (N.to_nat MaxInvPerMsg - length (msginv.InvList m))%nat with 0%nat by lia.
      reflexivity.
    + rewrite IH; simpl; rewrite length_app; simpl; [|lia].
      destruct (N.to_nat MaxInvPerMsg - length (msginv.InvList m))%nat as [|k] eqn:Hk;
        [lia|].
      replace (N.to_nat MaxInvPerMsg - (length (msginv.InvList m) + 1))%nat with k by lia.
      simpl. now rewrite <- app_assoc.
Qed.

(** X1.  A message made by [NewMsgInv] or [NewMsgInvSizeHint] and filled by
    any sequence of [AddInvVect] calls holds the first [MaxInvPerMsg] vectors
    offered, in order, and nothing else: the limit is never exceeded, and the
    backing array is asked for with a capacity within the limit. *)
Theorem AddInvVect_holds_first_max (ivs : list wire.InvVect) (sizeHint : N) :
  let offer m := fold_left (fun m iv => fst (msginv.AddInvVect m iv)) ivs m in
  msginv.InvList (offer (value msginv_encode.NewMsgInv))
  = firstn (N.to_nat MaxInvPerMsg) ivs
  /\ msginv.InvList (offer (value (msginv_encode.NewMsgInvSizeHint sizeHint)))
     = firstn (N.to_nat MaxInvPerMsg) ivs
  /\ (N.of_nat (length (msginv.InvList
                          (offer (value (msginv_encode.NewMsgInvSizeHint sizeHint)))))
      <= MaxInvPerMsg)%N
  /\ exists n, trace (msginv_encode.NewMsgInvSizeHint sizeHint) = [EvMake n]
               /\ (n <= MaxInvPerMsg)%N /\ (n <= sizeHint)%N.
Proof.
  cbv zeta. unfold msginv_encode.NewMsgInv, msginv_encode.NewMsgInvSizeHint, value, call.
  simpl snd. rewrite !AddInvVect_fold by (simpl; lia). simpl.
  rewrite Nat.sub_0_r. repeat split.
  - rewrite length_firstn. lia.
  - unfold trace. simpl.
    destruct (N.ltb_spec MaxInvPerMsg sizeHint); eexists; (split; [reflexivity|lia]).
Qed.

Lemma readInvVects_count (n : nat) (m m' : msginv.MsgInv) (r r' : Reader) (e : error) :
  (N.of_nat (length (msginv.InvList m) + n) <= MaxInvPerMsg)%N ->
  value (msginv.readInvVects n m r) = (m', r', e) ->
  (e = None -> length (msginv.InvList m') = (length (msginv.InvList m) + n)%nat)
  /\ (e <> None ->
      (length (msginv.InvList m) <= length (msginv.InvList m')
       < length (msginv.InvList m) + n)%nat).
Proof.
  revert m r. induction n as [|n IH]; intros m r Hroom; cbn [msginv.readInvVects].
  - unfold value, ret. simpl. intros H. injection H as <- _ <-.
    split; [lia|congruence].
  - rewrite value_bind. unfold value at 2, call. simpl snd.
    destruct (readInvVect r) as [r1 [iv|e1]].
    + rewrite AddInvVect_room by lia. simpl fst. intros H.
      apply IH in H; simpl in *; rewrite ?length_app in *; simpl in *; [|lia].
      destruct H as [Hok Herr]. split; intros He.
      * specialize (Hok He). lia.
      * specialize (Herr He). lia.
    + unfold value, ret. simpl. intros H. injection H as <- _ <-.
      split; [discriminate|]. intros _. lia.
Qed.

(** X2.  Once [Decode] has read a count within the limit, it returns nil
    exactly when the message holds [count] vectors, and an error exactly when
    it holds fewer: the result of [AddInvVect], which the loop drops, is never
    an error there.  What the message held before is gone. *)
Theorem Decode_count_or_error (msg msg' : msginv.MsgInv) (r r1 r' : Reader)
    (count : N) (e : error) :
  ReadVarInt r = (r1, Ok count) ->
  (count <= MaxInvPerMsg)%N ->
  value (msginv.Decode msg r) = (msg', r', e) ->
  (e = None <-> length (msginv.InvList msg') = N.to_nat count)
  /\ (e <> None <-> (length (msginv.InvList msg') < N.to_nat count)%nat)
  /\ value (msginv.Decode {| msginv.InvList := [] |} r) = (msg', r', e).
Proof.
  intros Hread Hle. unfold msginv.Decode. rewrite Hread.
  apply N.ltb_ge in Hle. rewrite Hle. apply N.ltb_ge in Hle.
  rewrite !value_bind. unfold value at 2 4, call. simpl snd. intros H.
  split; [|split; [|exact H]];
    apply readInvVects_count in H; simpl in *; try lia;
    destruct H as [Hok Herr]; destruct e as [e|]; split; intros Hx;
    try congruence; try discriminate;
    try (specialize (Hok eq_refl); lia);
    try (specialize (Herr ltac:(discriminate)); lia).
Qed.

Section OnBuffers.
Variable msg : msginv.MsgInv.

(** The collaborators of the two directions undo each other on the vectors
    of [msg] and on counts. *)
Hypothesis MaxInvPerMsg_uint64 : (MaxInvPerMsg < 2 ^ 64)%N.
Hypothesis varint_reads_back :
  forall (w : Buffer) (n : N), (n < 2 ^ 64)%N ->
    exists p, WriteVarInt w n = (mkBuffer (Bytes w ++ p), None)
              /\ forall rest, ReadVarInt (p ++ rest) = (rest, Ok n).
Hypothesis invVect_reads_back :
  forall (w : Buffer) (iv : wire.InvVect), In iv (msginv.InvList msg) ->
    exists p, writeInvVect w iv = (mkBuffer (Bytes w ++ p), None)
              /\ forall rest, readInvVect (p ++ rest) = (rest, Ok iv).

Lemma writeInvVects_read_back (ivs : list wire.InvVect) (w : Buffer) :
  (forall iv, In iv ivs -> In iv (msginv.InvList msg)) ->
  exists q,
    msginv_encode.writeInvVects ivs w = (mkBuffer (Bytes w ++ q), None)
    /\ forall (m : msginv.MsgInv) (rest : bytes),
         (N.of_nat (length (msginv.InvList m) + length ivs) <= MaxInvPerMsg)%N ->
         msginv.readInvVects (length ivs) m (q ++ rest)
         = (repeat EvReadInvVect (length ivs),
            ({| msginv.InvList := msginv.InvList m ++ ivs |}, rest, None)).
Proof.
  revert w. induction ivs as [|iv ivs IH]; intros w Hin.
  - exists []. split.
    + simpl. now rewrite app_nil_r; destruct w.
    + intros m rest _. simpl. rewrite app_nil_r. now destruct m.
  - destruct (invVect_reads_back w iv (Hin iv (or_introl eq_refl))) as [p [Hw Hr]].
    destruct (IH (mkBuffer (Bytes w ++ p)) (fun x Hx => Hin x (or_intror Hx)))
      as [q [Hws Hrs]].
    exists (p ++ q). split.
    + cbn [msginv_encode.writeInvVects]. rewrite Hw, Hws. simpl Bytes.
      now rewrite app_assoc.
    + intros m rest Hroom. cbn [msginv.readInvVects length].
      rewrite bind_call, <- app_assoc, Hr.
      rewrite AddInvVect_room by (simpl in Hroom; lia). simpl fst.
      rewrite Hrs by (simpl in *; rewrite length_app; simpl; lia).
      unfold trace, value. simpl. now rewrite <- app_assoc.
Qed.

(** X3.  A message within the limit encodes into a buffer, and [Decode]
    reads the whole of what [Encode] wrote back into the same message,
    making the list once with the count as capacity and reading each vector
    once. *)
Theorem Encode_Decode_roundtrip :
  (N.of_nat (length (msginv.InvList msg)) <= MaxInvPerMsg)%N ->
  exists out,
    msginv_encode.Encode msg emptyBuffer = (out, None)
    /\ forall old,
         msginv.Decode old (Bytes out)
         = (EvMake (N.of_nat (length (msginv.InvList msg)))
              :: repeat EvReadInvVect (length (msginv.InvList msg)),
            (msg, [], None)).
Proof.
  intros Hlen.
  destruct (varint_reads_back emptyBuffer (N.of_nat (length (msginv.InvList msg))))
    as [p [Hw Hr]]; [lia|].
  destruct (writeInvVects_read_back (msginv.InvList msg) (mkBuffer (Bytes emptyBuffer ++ p)))
    as [q [Hws Hrs]]; [auto|].
  exists (mkBuffer ((Bytes emptyBuffer ++ p) ++ q)). split.
  - unfold msginv_encode.Encode. apply N.ltb_ge in Hlen. now rewrite Hlen, Hw, Hws.
  - intros old. unfold msginv.Decode. simpl Bytes. rewrite Hr.
    apply N.ltb_ge in Hlen. rewrite Hlen. apply N.ltb_ge in Hlen.
    rewrite bind_call, Nat2N.id.
    rewrite <- (app_nil_r q), Hrs by (simpl; lia).
    unfold trace, value. simpl. now destruct msg.
Qed.

End OnBuffers.

Section EncodeSize.
Variable msg : msginv.MsgInv.

(** What the two writers add to a buffer is within their declared sizes. *)
Hypothesis varint_size :
  forall (w w' : Buffer) (n : N) (e : error), WriteVarInt w n = (w', e) ->
    (N.of_nat (length (Bytes w')) <= N.of_nat (length (Bytes w)) + MaxVarIntSize)%N.
Hypothesis invVect_size :
  forall (w w' : Buffer) (iv : wire.InvVect) (e : error),
    In iv (msginv.InvList msg) -> writeInvVect w iv = (w', e) ->
    (N.of_nat (length (Bytes w')) <= N.of_nat (length (Bytes w)) + maxInvVectPayload)%N.

Lemma writeInvVects_size (ivs : list wire.InvVect) (w w' : Buffer) (e : error) :
  (forall iv, In iv ivs -> In iv (msginv.InvList msg)) ->
  msginv_encode.writeInvVects ivs w = (w', e) ->
  (N.of_nat (length (Bytes w'))
   <= N.of_nat (length (Bytes w)) + N.of_nat (length ivs) * maxInvVectPayload)%N.
Proof.
  revert w. induction ivs as [|iv ivs IH]; intros w Hin; cbn [msginv_encode.writeInvVects].
  - intros H. injection H as <- _. simpl. lia.
  - destruct (writeInvVect w iv) as [w1 [e1|]] eqn:Hw.
    + intros H. injection H as <- _.
      apply invVect_size in Hw; [|now apply Hin; left]. simpl length. lia.
    + intros H. apply IH in H; [|intros x Hx; apply Hin; now right].
      apply invVect_size in Hw; [|now apply Hin; left]. simpl length. lia.
Qed.

(** X4.  [Encode] hands back the writer as it was when it rejects a message
    over the limit, whatever the writer is, and never adds more than
    [MaxPayloadLength] bytes to a buffer, whether it succeeds or not. *)
Theorem Encode_within_MaxPayloadLength :
  (forall (W : Type) (H : Writer W) (w : W),
     (MaxInvPerMsg < N.of_nat (length (msginv.InvList msg)))%N ->
     msginv_encode.Encode msg w
     = (w, Some (MessageError "MsgInv.Encode"
                   ("too many invvect in message ["
                    ++ decimal (N.of_nat (length (msginv.InvList msg))) ++ "]")%string)))
  /\ (forall (w w' : Buffer) (e : error),
        msginv_encode.Encode msg w = (w', e) ->
        (N.of_nat (length (Bytes w'))
         <= N.of_nat (length (Bytes w)) + msginv_encode.MaxPayloadLength msg)%N).
Proof.
  split.
  - intros W H w Hover. unfold msginv_encode.Encode.
    apply N.ltb_lt in Hover. now rewrite Hover.
  - intros w w' e. unfold msginv_encode.Encode, msginv_encode.MaxPayloadLength.
    destruct (N.ltb_spec MaxInvPerMsg (N.of_nat (length (msginv.InvList msg))))
      as [Hover|Hle].
    + intros H. injection H as <- _. lia.
    + destruct (WriteVarInt w _) as [w1 [e1|]] eqn:Hw.
      * intros H. injection H as <- _. apply varint_size in Hw. lia.
      * intros H. apply writeInvVects_size in H; [|auto].
        apply varint_size in Hw. nia.
Qed.

End EncodeSize.

End MsgInvFacts.

(** ** The open pipeline: what a returned Broadcast guarantees *)

Section OpenFacts.
Context {C : Collaborators}.

Lemma encodeForSigning_returns (broadcast : cipher.Broadcast) (m : obj.Broadcast)
    (w : Buffer) :
  cipher.msg broadcast = Some m ->
  exists w' e, cipher.encodeForSigning broadcast w = Returns (w', e).
Proof.
  intros Hm. unfold cipher.encodeForSigning. rewrite Hm.
  destruct (Broadcast_EncodeForSigning m w) as [w1 [e1|]]; [eauto|].
  destruct (encodeBroadcast (cipher.data broadcast) w1) as [w2 [e2|]]; eauto.
Qed.

(** [verify] panics exactly on a nil [msg]. *)
Lemma verify_panics_iff (broadcast : cipher.Broadcast) (address : Address) :
  (cipher.msg broadcast = None ->
   cipher.verify broadcast address = ([], Panics "msg is nil"))
  /\ (cipher.msg broadcast <> None ->
      exists e, value (cipher.verify broadcast address) = Returns e).
Proof.
  unfold cipher.verify. split.
  - intros ->. reflexivity.
  - intros Hm. destruct (cipher.msg broadcast) as [m|] eqn:Hmsg; [|contradiction].
    destruct (ToBtcec _) as [signKey|e]; [|eexists; reflexivity].
    destruct (ToBtcec _) as [encKey|e]; [|eexists; reflexivity].
    destruct (NewPublic _ _ _ _ _ _) as [id|e]; [|eexists; reflexivity].
    destruct (negb _); [eexists; reflexivity|].
    destruct (encodeForSigning_returns broadcast m emptyBuffer Hmsg) as [w' [e Henc]].
    rewrite Henc. destruct e as [e|]; [eexists; reflexivity|].
    rewrite !bind_call. unfold value. simpl snd.
    destruct (ParseSignature _) as [sig|e]; [|eexists; reflexivity].
    destruct (Verify sig (Sum256 (Bytes w')) _);
      [|destruct (Verify sig (sha1_Sum (Bytes w')) _)];
      simpl; eexists; reflexivity.
Qed.

(** What a nil result of [verify] stands for. *)
Lemma verify_nil_inversion (broadcast : cipher.Broadcast) (address : Address) :
  value (cipher.verify broadcast address) = Returns None ->
  exists m signKey encKey id buf,
    cipher.msg broadcast = Some m
    /\ ToBtcec (SigningKey (cipher.data broadcast)) = Ok signKey
    /\ ToBtcec (EncryptionKey (cipher.data broadcast)) = Ok encKey
    /\ NewPublic signKey encKey (Behavior (cipher.data broadcast))
         (Pow (cipher.data broadcast)) (Address_Version address) (Address_Stream address)
       = Ok id
    /\ Address_String (Public_Address id) = Address_String address
    /\ cipher.encodeForSigning broadcast emptyBuffer = Returns (buf, None)
    /\ (checksAgainst (cipher.signature broadcast) (Sum256 (Bytes buf)) signKey = true
        \/ checksAgainst (cipher.signature broadcast) (sha1_Sum (Bytes buf)) signKey = true).
Proof.
  unfold cipher.verify, checksAgainst.
  destruct (cipher.msg broadcast) as [m|] eqn:Hmsg; [|discriminate].
  destruct (ToBtcec (SigningKey _)) as [signKey|e] eqn:Hs; [|discriminate].
  destruct (ToBtcec (EncryptionKey _)) as [encKey|e] eqn:He; [|discriminate].
  destruct (NewPublic _ _ _ _ _ _) as [id|e] eqn:Hid; [|discriminate].
  destruct (String.eqb _ _) eqn:Hstr; simpl negb; cbv iota; [|discriminate].
  apply String.eqb_eq in Hstr.
  destruct (cipher.encodeForSigning broadcast emptyBuffer) as [[buf [e|]]|s] eqn:Henc;
    try discriminate.
  rewrite !bind_call. unfold value. simpl snd.
  destruct (ParseSignature _) as [sig|e] eqn:Hparse; [|discriminate].
  destruct (Verify sig (Sum256 (Bytes buf)) signKey) eqn:H256; simpl.
  - intros _. exists m, signKey, encKey, id, buf. auto 10.
  - destruct (Verify sig (sha1_Sum (Bytes buf)) signKey) eqn:H1; simpl; [|discriminate].
    intros _. exists m, signKey, encKey, id, buf. auto 10.
Qed.

(** What a successful [decodeFromDecrypted] has read. *)
Lemma decodeFromDecrypted_ok_inversion (msg0 : option obj.Broadcast) (r r' : Reader)
    (b : cipher.Broadcast) :
  cipher.decodeFromDecrypted msg0 r = (r', Ok b) ->
  exists r1 r2 n,
    decodeBroadcast r = (r1, Ok (cipher.data b))
    /\ ReadVarInt r1 = (r2, Ok n)
    /\ (n <= SignatureMaxLength)%N
    /\ (N.to_nat n <= length r2)%nat
    /\ cipher.signature b = firstn (N.to_nat n) r2
    /\ r' = skipn (N.to_nat n) r2
    /\ cipher.msg b = msg0.
Proof.
  unfold cipher.decodeFromDecrypted.
  destruct (decodeBroadcast r) as [r1 [data|e]] eqn:Hd; [|discriminate].
  destruct (ReadVarInt r1) as [r2 [n|e]] eqn:Hv; [|discriminate].
  destruct (N.ltb_spec SignatureMaxLength n) as [Hgt|Hle]; [discriminate|].
  unfold ReadFull. destruct (Nat.ltb_spec (length r2) (N.to_nat n)) as [Hshort|Hlong];
    [discriminate|].
  intros H. injection H as <- <-. exists r1, r2, n. simpl. auto 10.
Qed.

(** X5.  A [Broadcast] returned by [newBroadcast] comes with a nil error and
    is authenticated: the ciphertext of the object decrypted under the key,
    the plaintext decoded into its data and its signature, the signature is
    no longer than [SignatureMaxLength], the identity rebuilt from its keys
    has the address string of the address given, and the signature checks
    against the SHA-256 or the SHA-1 hash of its signable encoding. *)
Theorem newBroadcast_returns_authenticated (msg : obj.Broadcast) (key : PrivateKey)
    (address : Address) (b : cipher.Broadcast) (e : error) :
  value (cipher.newBroadcast msg key address) = Returns (Some b, e) ->
  e = None
  /\ cipher.msg b = Some msg
  /\ (N.of_nat (length (cipher.signature b)) <= SignatureMaxLength)%N
  /\ (exists dec r,
        Decrypt key (obj.Encrypted msg) = Ok dec
        /\ cipher.decodeFromDecrypted None dec
           = (r, Ok {| cipher.msg := None; cipher.data := cipher.data b;
                       cipher.signature := cipher.signature b |}))
  /\ (exists signKey encKey id buf,
        ToBtcec (SigningKey (cipher.data b)) = Ok signKey
        /\ ToBtcec (EncryptionKey (cipher.data b)) = Ok encKey
        /\ NewPublic signKey encKey (Behavior (cipher.data b)) (Pow (cipher.data b))
             (Address_Version address) (Address_Stream address) = Ok id
        /\ Address_String (Public_Address id) = Address_String address
        /\ cipher.encodeForSigning b emptyBuffer = Returns (buf, None)
        /\ (checksAgainst (cipher.signature b) (Sum256 (Bytes buf)) signKey = true
            \/ checksAgainst (cipher.signature b) (sha1_Sum (Bytes buf)) signKey = true)).
Proof.
  unfold cipher.newBroadcast. rewrite bind_call. unfold value at 1. simpl snd.
  destruct (Decrypt key (obj.Encrypted msg)) as [dec|e0] eqn:Hdec.
  2:{ destruct e0; unfold value, ret; simpl; discriminate. }
  change (Bytes (fst (Write emptyBuffer dec))) with dec.
  destruct (cipher.decodeFromDecrypted None dec) as [r [b0|e0]] eqn:Hdecode;
    [|unfold value, ret; simpl; discriminate].
  rewrite value_bind.
  destruct (value (cipher.verify _ address)) as [[e1|]|s] eqn:Hver;
    unfold value, ret; simpl; try discriminate.
  intros H. injection H as <- <-. simpl.
  pose proof (decodeFromDecrypted_ok_inversion _ _ _ _ Hdecode)
    as [r1 [r2 [n [_ [_ [Hn [Hlen [Hsig _]]]]]]]].
  apply verify_nil_inversion in Hver.
  destruct Hver as [m [signKey [encKey [id [buf Hver]]]]]. simpl in Hver.
  split; [reflexivity|]. split; [reflexivity|]. split; [|split].
  - rewrite Hsig, length_firstn. lia.
  - exists dec, r. split; [reflexivity|]. rewrite Hdecode.
    pose proof (decodeFromDecrypted_ok_inversion _ _ _ _ Hdecode)
      as [_ [_ [_ [_ [_ [_ [_ [_ [_ Hm0]]]]]]]]].
    destruct b0 as [m0 d0 s0]. simpl in *. now subst m0.
  - exists signKey, encKey, id, buf. tauto.
Qed.

(** X6.  The two opening entry points never panic and return exactly one of
    a [Broadcast] and an error.  [NewTaglessBroadcast] returns what
    [newBroadcast] returns under the version-4 key of the address;
    [NewTaggedBroadcast] returns a [Broadcast] exactly when the tags are equal
    and [newBroadcast] returns it under the version-5 key. *)
Theorem New_entry_points (address : Address) :
  (forall (msg : obj.TaglessBroadcast),
     exists b e,
       value (cipher.NewTaglessBroadcast msg address) = Returns (b, e)
       /\ (b = None <-> e <> None)
       /\ (forall b', b = Some b' <->
             value (cipher.newBroadcast (obj.Tagless msg)
                      (V4BroadcastDecryptionKey address) address)
             = Returns (Some b', None)))
  /\ (forall (msg : obj.TaggedBroadcast),
        exists b e,
          value (cipher.NewTaggedBroadcast msg address) = Returns (b, e)
          /\ (b = None <-> e <> None)
          /\ (forall b', b = Some b' <->
                obj.Tag msg = Tag address
                /\ value (cipher.newBroadcast (obj.Tagged msg)
                            (V5BroadcastDecryptionKey address) address)
                   = Returns (Some b', None))).
Proof.
  assert (Hnew : forall msg key,
            exists b e, value (cipher.newBroadcast msg key address) = Returns (b, e)
                        /\ (b = None <-> e <> None)).
  { intros msg key. unfold cipher.newBroadcast. rewrite bind_call. unfold value at 1.
    simpl snd.
    destruct (Decrypt key (obj.Encrypted msg)) as [dec|e0].
    2:{ destruct e0; do 2 eexists; (split; [reflexivity|]); split; congruence. }
    destruct (cipher.decodeFromDecrypted None _) as [r [b0|e0]].
    2:{ do 2 eexists. split; [reflexivity|]. split; congruence. }
    rewrite value_bind.
    match goal with |- context [cipher.verify ?x address] =>
      destruct (proj2 (verify_panics_iff x address) ltac:(simpl; discriminate)) as [e1 He1]
    end.
    rewrite He1. destruct e1 as [e1|]; do 2 eexists; (split; [reflexivity|]);
      split; congruence. }
  split; intros msg.
  - unfold cipher.NewTaglessBroadcast. rewrite value_bind.
    change (value (call EvBroadcastDecryptionKey (V4BroadcastDecryptionKey address)))
      with (V4BroadcastDecryptionKey address).
    rewrite value_bind.
    destruct (Hnew (obj.Tagless msg) (V4BroadcastDecryptionKey address))
      as [b [e [Hv Hbe]]].
    rewrite Hv. destruct e as [e|]; unfold value, ret; simpl.
    + exists None, (Some e). split; [reflexivity|]. split; [split; congruence|].
      intros b'. split; [discriminate|]. intros H. discriminate H.
    + exists b, None. split; [reflexivity|]. split; [exact Hbe|].
      intros b'. split; [intros ->; reflexivity|]. intros H. now injection H.
  - unfold cipher.NewTaggedBroadcast. rewrite value_bind.
    change (value (call EvTag (Tag address))) with (Tag address).
    destruct (list_eq_dec Byte.byte_eq_dec (obj.Tag msg) (Tag address)) as [Heq|Hne].
    + rewrite (proj2 (subtle_facts.ConstantTimeCompare_eq _ _) Heq). simpl negb. cbv iota.
      rewrite value_bind.
      change (value (call EvBroadcastDecryptionKey (V5BroadcastDecryptionKey address)))
        with (V5BroadcastDecryptionKey address).
      rewrite value_bind.
      destruct (Hnew (obj.Tagged msg) (V5BroadcastDecryptionKey address))
        as [b [e [Hv Hbe]]].
      rewrite Hv. destruct e as [e|]; unfold value, ret; simpl.
      * exists None, (Some e). split; [reflexivity|]. split; [split; congruence|].
        intros b'. split; [discriminate|]. intros [_ H]. discriminate H.
      * exists b, None. split; [reflexivity|]. split; [exact Hbe|].
        intros b'. split; [intros ->; auto|]. intros [_ H]. now injection H.
    + rewrite (subtle_facts.ConstantTimeCompare_neq _ _ Hne). simpl.
      exists None, (Some ErrInvalidIdentity). split; [reflexivity|].
      split; [split; congruence|].
      intros b'. split; [discriminate|]. intros [H _]. contradiction.
Qed.

(** X7.  Past the [Bitmessage] and a length [n] within the limit,
    [decodeFromDecrypted] takes exactly the next [n] bytes as the signature
    and leaves what follows unread, without an error for trailing bytes; with
    fewer than [n] bytes left it fails with [io.EOF] when nothing is left and
    [io.ErrUnexpectedEOF] otherwise. *)
Theorem decodeFromDecrypted_signature_bytes (msg0 : option obj.Broadcast)
    (r r1 r2 : Reader) (data : Bitmessage) (n : N) :
  decodeBroadcast r = (r1, Ok data) ->
  ReadVarInt r1 = (r2, Ok n) ->
  (n <= SignatureMaxLength)%N ->
  ((N.to_nat n <= length r2)%nat ->
   cipher.decodeFromDecrypted msg0 r
   = (skipn (N.to_nat n) r2,
      Ok {| cipher.msg := msg0; cipher.data := data;
            cipher.signature := firstn (N.to_nat n) r2 |}))
  /\ ((length r2 < N.to_nat n)%nat ->
      cipher.decodeFromDecrypted msg0 r
      = ([], Err (match r2 with [] => EOF | _ :: _ => ErrUnexpectedEOF end))).
Proof.
  intros Hdata Hn Hle. unfold cipher.decodeFromDecrypted.
  rewrite Hdata, Hn. apply N.ltb_ge in Hle. rewrite Hle. unfold ReadFull. split.
  - intros Hlen. apply Nat.ltb_ge in Hlen. now rewrite Hlen.
  - intros Hlen. apply Nat.ltb_lt in Hlen. now rewrite Hlen.
Qed.

End OpenFacts.

(** ** The create pipeline: what a returned Broadcast holds *)

Section CreateFacts.
Context {C : Collaborators}.

Lemma Encrypt_incomplete_cases (i : cipher.incompleteBroadcast) (address : Address)
    (d : bytes) :
  cipher.Encrypt_incomplete i address d
  = ([EvBroadcastDecryptionKey; EvEncrypt],
     match Encrypt (PubKey (incompleteKey i address)) d with
     | Ok c => (Some (completed i c), None)
     | Err e => (None, Some e)
     end).
Proof.
  destruct i; unfold cipher.Encrypt_incomplete; rewrite !bind_call; simpl;
    destruct (Encrypt _ d); reflexivity.
Qed.

(** A successful [signAndEncrypt], step by step. *)
Lemma signAndEncrypt_success (broadcast b' : cipher.Broadcast)
    (i : cipher.incompleteBroadcast) (address : Address) (private : identity.Private) :
  value (cipher.signAndEncrypt broadcast i address private) = (b', None) ->
  exists b1 sig b2 c,
    cipher.broadcastEncodeForSigning emptyBuffer i (cipher.data broadcast) = (b1, None)
    /\ Sign (identity.SigningKey private) (Sum256 (Bytes b1)) = Ok sig
    /\ cipher.encodeForEncryption
         {| cipher.msg := cipher.msg broadcast; cipher.data := cipher.data broadcast;
            cipher.signature := Serialize sig |} emptyBuffer = (b2, None)
    /\ Encrypt (PubKey (incompleteKey i address)) (Bytes b2) = Ok c
    /\ b' = {| cipher.msg := Some (completed i c); cipher.data := cipher.data broadcast;
               cipher.signature := Serialize sig |}
    /\ trace (cipher.signAndEncrypt broadcast i address private)
       = [EvSHA256; EvSign; EvBroadcastDecryptionKey; EvEncrypt].
Proof.
  unfold cipher.signAndEncrypt.
  destruct (cipher.broadcastEncodeForSigning emptyBuffer i (cipher.data broadcast))
    as [b1 [e|]] eqn:H1; [unfold value, ret; simpl; discriminate|].
  rewrite !bind_call.
  destruct (Sign (identity.SigningKey private) (Sum256 (Bytes b1))) as [sig|e] eqn:H2;
    [|unfold value, ret; simpl; discriminate].
  change (Buffer_Reset b1) with emptyBuffer.
  destruct (cipher.encodeForEncryption _ emptyBuffer) as [b2 [e|]] eqn:H3;
    [unfold value, ret; simpl; discriminate|].
  rewrite Encrypt_incomplete_cases.
  destruct (Encrypt (PubKey (incompleteKey i address)) (Bytes b2)) as [c|e] eqn:H4;
    unfold value, trace, bind, ret; simpl; [|discriminate].
  intros H. injection H as <-. exists b1, sig, b2, c. auto 10.
Qed.

(** X8.  A [Broadcast] returned by a creation entry point comes with a nil
    error, holds the caller's data, which has no destination, a signature made
    with the private signing key over the SHA-256 hash of the signable bytes
    (never the SHA-1 hash), and an object with nonce 0, the expiration given,
    the stream of the private identity's address and, for the tagged one, the
    tag given, around the encryption of payload, signature length and
    signature under the public version-4 (tagless) or version-5 (tagged)
    broadcast key of that address. *)
Theorem Create_returns_signed_object (data : Bitmessage) (private : identity.Private)
    (expiration : Z) (tag : bytes) (b : cipher.Broadcast) (e : error) :
  let address := identity.Private_Address private in
  let made (i : cipher.incompleteBroadcast) (key : PrivateKey)
           (object : bytes -> obj.Broadcast) (run : M (option cipher.Broadcast * error)) :=
    value run = (Some b, e) ->
    e = None /\ Destination data = None /\ cipher.data b = data
    /\ trace run = [EvSHA256; EvSign; EvBroadcastDecryptionKey; EvEncrypt]
    /\ exists b1 sig b2 c,
         cipher.broadcastEncodeForSigning emptyBuffer i data = (b1, None)
         /\ Sign (identity.SigningKey private) (Sum256 (Bytes b1)) = Ok sig
         /\ cipher.signature b = Serialize sig
         /\ cipher.encodeForEncryption
              {| cipher.msg := None; cipher.data := data;
                 cipher.signature := Serialize sig |} emptyBuffer = (b2, None)
         /\ Encrypt (PubKey key) (Bytes b2) = Ok c
         /\ cipher.msg b = Some (object c) in
  made (cipher.incompleteTaglessBroadcast expiration (Address_Stream address))
       (V4BroadcastDecryptionKey address)
       (fun c => obj.Tagless
                   (obj.NewTaglessBroadcast 0 expiration (Address_Stream address) c))
       (cipher.CreateTaglessBroadcast expiration data private)
  /\ made (cipher.incompleteTaggedBroadcast expiration (Address_Stream address) tag)
          (V5BroadcastDecryptionKey address)
          (fun c => obj.Tagged
                      (obj.NewTaggedBroadcast 0 expiration (Address_Stream address) tag c))
          (cipher.CreateTaggedBroadcast expiration data tag private).
Proof.
  cbv zeta. unfold cipher.CreateTaglessBroadcast, cipher.CreateTaggedBroadcast.
  split.
  - destruct (Destination data) eqn:Hd; [unfold value, ret; simpl; discriminate|].
    rewrite value_bind, trace_bind.
    match goal with |- context [cipher.signAndEncrypt ?x ?i ?a ?p] =>
      pose proof (signAndEncrypt_success x) as Hs;
      destruct (value (cipher.signAndEncrypt x i a p)) as [b' [e'|]] eqn:Hv
    end; unfold value at 1, ret; simpl snd; [discriminate|].
    intros H. injection H as <- <-.
    destruct (Hs _ _ _ _ Hv) as [b1 [sig [b2 [c [H1 [H2 [H3 [H4 [-> Ht]]]]]]]]].
    rewrite Ht. simpl. repeat split. exists b1, sig, b2, c. auto 10.
  - destruct (Destination data) eqn:Hd; [unfold value, ret; simpl; discriminate|].
    rewrite value_bind, trace_bind.
    match goal with |- context [cipher.signAndEncrypt ?x ?i ?a ?p] =>
      pose proof (signAndEncrypt_success x) as Hs;
      destruct (value (cipher.signAndEncrypt x i a p)) as [b' [e'|]] eqn:Hv
    end; unfold value at 1, ret; simpl snd; [discriminate|].
    intros H. injection H as <- <-.
    destruct (Hs _ _ _ _ Hv) as [b1 [sig [b2 [c [H1 [H2 [H3 [H4 [-> Ht]]]]]]]]].
    rewrite Ht. simpl. repeat split. exists b1, sig, b2, c. auto 10.
Qed.

End CreateFacts.

(** ** Creating, then opening *)

Section CreateThenOpen.
Context {C : Collaborators} {L : CodecLaws C}.

(** What [encodeForEncryption] wrote into an empty buffer decodes. *)
Lemma decodeFromDecrypted_of_encoded (broadcast : cipher.Broadcast)
    (msg0 : option obj.Broadcast) (out : Buffer) :
  (N.of_nat (length (cipher.signature broadcast)) <= SignatureMaxLength)%N ->
  cipher.encodeForEncryption broadcast emptyBuffer = (out, None) ->
  exists decoded,
    cipher.decodeFromDecrypted msg0 (Bytes out) = ([], Ok decoded)
    /\ visible (cipher.data decoded) = visible (cipher.data broadcast)
    /\ cipher.signature decoded = cipher.signature broadcast
    /\ cipher.msg decoded = msg0.
Proof.
  intros Hlen. unfold cipher.encodeForEncryption.
  destruct (encodeBroadcast (cipher.data broadcast) emptyBuffer) as [w [e|]] eqn:Hw;
    [discriminate|].
  pose proof SignatureMaxLength_uint64 as Hmax.
  destruct (bitmessage_roundtrip _ _ _ Hw) as [p1 [-> Hdec]].
  destruct (varint_roundtrip (mkBuffer (Bytes emptyBuffer ++ p1))
              (N.of_nat (length (cipher.signature broadcast)))) as [p2 [Hwv Hrv]];
    [lia|].
  rewrite Hwv. simpl. intros H. injection H as <-.
  destruct (Hdec (p2 ++ cipher.signature broadcast)) as [m' [Hm' Hvis]].
  exists {| cipher.msg := msg0; cipher.data := m';
            cipher.signature := cipher.signature broadcast |}.
  split; [|auto].
  unfold cipher.decodeFromDecrypted. simpl Bytes. rewrite <- app_assoc, Hm', Hrv.
  apply N.ltb_ge in Hlen. rewrite Hlen, Nat2N.id.
  rewrite <- (app_nil_r (cipher.signature broadcast)) at 1.
  now rewrite ReadFull_app.
Qed.

Section OneVariant.
Variables (i : cipher.incompleteBroadcast) (address : Address)
          (private : identity.Private) (data : Bitmessage)
          (signKey encKey : PublicKey) (id : Public).

Hypothesis payload_by_visible_fields :
  forall (m : Bitmessage) (w : Buffer),
    visible m = visible data -> encodeBroadcast m w = encodeBroadcast data w.
Hypothesis header_of_object :
  forall (c : bytes) (w : Buffer),
    Broadcast_EncodeForSigning (completed i c) w = cipher.Encode i w.
Hypothesis decrypt_inverts_encrypt :
  forall (d c : bytes),
    Encrypt (PubKey (incompleteKey i address)) d = Ok c ->
    Decrypt (incompleteKey i address) c = Ok d.
Hypothesis signature_verifies :
  forall (b1 : Buffer) (sig : Signature),
    cipher.broadcastEncodeForSigning emptyBuffer i data = (b1, None) ->
    Sign (identity.SigningKey private) (Sum256 (Bytes b1)) = Ok sig ->
    (N.of_nat (length (Serialize sig)) <= SignatureMaxLength)%N
    /\ exists sig', ParseSignature (Serialize sig) = Ok sig'
                    /\ Verify sig' (Sum256 (Bytes b1)) signKey = true.
Hypothesis signing_key_of_data : ToBtcec (SigningKey data) = Ok signKey.
Hypothesis encryption_key_of_data : ToBtcec (EncryptionKey data) = Ok encKey.
Hypothesis identity_of_data :
  NewPublic signKey encKey (Behavior data) (Pow data)
    (Address_Version address) (Address_Stream address) = Ok id.
Hypothesis address_of_identity :
  Address_String (Public_Address id) = Address_String address.

Lemma created_object_opens (b : cipher.Broadcast) :
  value (cipher.signAndEncrypt
           {| cipher.msg := None; cipher.data := data; cipher.signature := [] |}
           i address private) = (b, None) ->
  exists c b1 opened,
    cipher.msg b = Some (completed i c)
    /\ cipher.broadcastEncodeForSigning emptyBuffer i data = (b1, None)
    /\ cipher.newBroadcast (completed i c) (incompleteKey i address) address
       = ([EvDecrypt; EvSHA256; EvSHA1; EvParseSignature; EvVerify (Sum256 (Bytes b1))],
          Returns (Some opened, None))
    /\ visible (cipher.data opened) = visible data
    /\ cipher.signature opened = cipher.signature b
    /\ cipher.msg opened = cipher.msg b.
Proof.
  intros Hrun. apply signAndEncrypt_success in Hrun.
  destruct Hrun as [b1 [sig [b2 [c [H1 [H2 [H3 [H4 [-> _]]]]]]]]]. simpl in *.
  destruct (signature_verifies b1 sig H1 H2) as [Hlen [sig' [Hparse Hverify]]].
  destruct (decodeFromDecrypted_of_encoded
              {| cipher.msg := None; cipher.data := data;
                 cipher.signature := Serialize sig |} None b2 Hlen H3)
    as [decoded [Hdecode [Hvis [Hsig Hmsg]]]]. simpl in Hvis, Hsig.
  exists c, b1.
  exists {| cipher.msg := Some (completed i c); cipher.data := cipher.data decoded;
            cipher.signature := cipher.signature decoded |}.
  split; [reflexivity|]. split; [exact H1|]. split; [|simpl; auto].
  assert (Henc : obj.Encrypted (completed i c) = c) by (destruct i; reflexivity).
  unfold cipher.newBroadcast. rewrite bind_call, Henc, (decrypt_inverts_encrypt _ _ H4).
  change (Bytes (fst (Write emptyBuffer (Bytes b2)))) with (Bytes b2).
  rewrite Hdecode.
  assert (Hfields : SigningKey (cipher.data decoded) = SigningKey data
                    /\ EncryptionKey (cipher.data decoded) = EncryptionKey data
                    /\ Pow (cipher.data decoded) = Pow data
                    /\ Behavior (cipher.data decoded) = Behavior data).
  { unfold visible in Hvis. injection Hvis as -> -> -> -> _. auto. }
  destruct Hfields as [Fs [Fe [Fp Fb]]].
  unfold cipher.verify. simpl cipher.msg. simpl cipher.data. simpl cipher.signature.
  rewrite Fs, Fe, Fp, Fb, signing_key_of_data, encryption_key_of_data, identity_of_data.
  rewrite address_of_identity, String.eqb_refl. simpl negb. cbv iota.
  unfold cipher.encodeForSigning. simpl cipher.msg. simpl cipher.data. cbv beta iota.
  rewrite header_of_object.
  unfold cipher.broadcastEncodeForSigning in H1.
  destruct (cipher.Encode i emptyBuffer) as [w1 [e1|]]; [discriminate|].
  rewrite (payload_by_visible_fields _ _ Hvis).
  destruct (encodeBroadcast data w1) as [w2 [e2|]]; [discriminate|].
  injection H1 as ->.
  rewrite !bind_call, Hsig, Hparse, bind_call, Hverify. reflexivity.
Qed.

End OneVariant.

(** X9.  What [CreateTaggedBroadcast] returns opens under the creator's
    address: when the tag is the address's, the data carries the keys of the
    identity behind the address, signatures of the private key verify under
    the signing key, and the version-5 key decrypts what its public half
    encrypts, [NewTaggedBroadcast] on the created object returns a
    [Broadcast] with the same object, signature and caller-visible data,
    after one signature check, against the SHA-256 hash. *)
Theorem CreateTagged_then_NewTagged (expires : Z) (data : Bitmessage) (tag : bytes)
    (private : identity.Private) (signKey encKey : PublicKey) (id : Public)
    (b : cipher.Broadcast) :
  let address := identity.Private_Address private in
  let i := cipher.incompleteTaggedBroadcast expires (Address_Stream address) tag in
  (forall (m : Bitmessage) (w : Buffer),
     visible m = visible data -> encodeBroadcast m w = encodeBroadcast data w) ->
  (forall (c : bytes) (w : Buffer),
     Broadcast_EncodeForSigning (completed i c) w = cipher.Encode i w) ->
  (forall (d c : bytes),
     Encrypt (PubKey (V5BroadcastDecryptionKey address)) d = Ok c ->
     Decrypt (V5BroadcastDecryptionKey address) c = Ok d) ->
  (forall (b1 : Buffer) (sig : Signature),
     cipher.broadcastEncodeForSigning emptyBuffer i data = (b1, None) ->
     Sign (identity.SigningKey private) (Sum256 (Bytes b1)) = Ok sig ->
     (N.of_nat (length (Serialize sig)) <= SignatureMaxLength)%N
     /\ exists sig', ParseSignature (Serialize sig) = Ok sig'
                     /\ Verify sig' (Sum256 (Bytes b1)) signKey = true) ->
  ToBtcec (SigningKey data) = Ok signKey ->
  ToBtcec (EncryptionKey data) = Ok encKey ->
  NewPublic signKey encKey (Behavior data) (Pow data)
    (Address_Version address) (Address_Stream address) = Ok id ->
  Address_String (Public_Address id) = Address_String address ->
  tag = Tag address ->
  value (cipher.CreateTaggedBroadcast expires data tag private) = (Some b, None) ->
  exists m b1 opened,
    cipher.msg b = Some (obj.Tagged m)
    /\ cipher.broadcastEncodeForSigning emptyBuffer i data = (b1, None)
    /\ cipher.NewTaggedBroadcast m address
       = ([EvTag; EvBroadcastDecryptionKey; EvDecrypt; EvSHA256; EvSHA1;
           EvParseSignature; EvVerify (Sum256 (Bytes b1))],
          Returns (Some opened, None))
    /\ visible (cipher.data opened) = visible data
    /\ cipher.signature opened = cipher.signature b
    /\ cipher.msg opened = cipher.msg b.
Proof.
  intros address i Hvis Hhead Hdec Hsig Hs He Hid Haddr Htag Hcreate.
  unfold cipher.CreateTaggedBroadcast in Hcreate.
  destruct (Destination data); [discriminate Hcreate|].
  rewrite value_bind in Hcreate. fold address in Hcreate. fold i in Hcreate.
  destruct (value (cipher.signAndEncrypt _ i address private)) as [b' [e'|]] eqn:Hrun;
    [discriminate Hcreate|].
  unfold value, ret in Hcreate. simpl in Hcreate. injection Hcreate as ->.
  destruct (created_object_opens i address private data signKey encKey id
              Hvis Hhead Hdec Hsig Hs He Hid Haddr b Hrun)
    as [c [b1 [opened [Hm [H1 [Hopen Hrest]]]]]].
  simpl completed in Hm, Hopen. simpl incompleteKey in Hopen.
  eexists. exists b1, opened. split; [exact Hm|]. split; [exact H1|].
  split; [|exact Hrest].
  unfold cipher.NewTaggedBroadcast. rewrite bind_call. simpl obj.Tag.
  rewrite (proj2 (subtle_facts.ConstantTimeCompare_eq _ _) Htag). simpl negb. cbv iota.
  rewrite bind_call, Hopen. reflexivity.
Qed.

(** X10.  What [CreateTaglessBroadcast] returns opens under the creator's
    address with [NewTaglessBroadcast], under the matching conditions for the
    version-4 key. *)
Theorem CreateTagless_then_NewTagless (expiration : Z) (data : Bitmessage)
    (private : identity.Private) (signKey encKey : PublicKey) (id : Public)
    (b : cipher.Broadcast) :
  let address := identity.Private_Address private in
  let i := cipher.incompleteTaglessBroadcast expiration (Address_Stream address) in
  (forall (m : Bitmessage) (w : Buffer),
     visible m = visible data -> encodeBroadcast m w = encodeBroadcast data w) ->
  (forall (c : bytes) (w : Buffer),
     Broadcast_EncodeForSigning (completed i c) w = cipher.Encode i w) ->
  (forall (d c : bytes),
     Encrypt (PubKey (V4BroadcastDecryptionKey address)) d = Ok c ->
     Decrypt (V4BroadcastDecryptionKey address) c = Ok d) ->
  (forall (b1 : Buffer) (sig : Signature),
     cipher.broadcastEncodeForSigning emptyBuffer i data = (b1, None) ->
     Sign (identity.SigningKey private) (Sum256 (Bytes b1)) = Ok sig ->
     (N.of_nat (length (Serialize sig)) <= SignatureMaxLength)%N
     /\ exists sig', ParseSignature (Serialize sig) = Ok sig'
                     /\ Verify sig' (Sum256 (Bytes b1)) signKey = true) ->
  ToBtcec (SigningKey data) = Ok signKey ->
  ToBtcec (EncryptionKey data) = Ok encKey ->
  NewPublic signKey encKey (Behavior data) (Pow data)
    (Address_Version address) (Address_Stream address) = Ok id ->
  Address_String (Public_Address id) = Address_String address ->
  value (cipher.CreateTaglessBroadcast expiration data private) = (Some b, None) ->
  exists m b1 opened,
    cipher.msg b = Some (obj.Tagless m)
    /\ cipher.broadcastEncodeForSigning emptyBuffer i data = (b1, None)
    /\ cipher.NewTaglessBroadcast m address
       = ([EvBroadcastDecryptionKey; EvDecrypt; EvSHA256; EvSHA1;
           EvParseSignature; EvVerify (Sum256 (Bytes b1))],
          Returns (Some opened, None))
    /\ visible (cipher.data opened) = visible data
    /\ cipher.signature opened = cipher.signature b
    /\ cipher.msg opened = cipher.msg b.
Proof.
  intros address i Hvis Hhead Hdec Hsig Hs He Hid Haddr Hcreate.
  unfold cipher.CreateTaglessBroadcast in Hcreate.
  destruct (Destination data); [discriminate Hcreate|].
  rewrite value_bind in Hcreate. fold address in Hcreate. fold i in Hcreate.
  destruct (value (cipher.signAndEncrypt _ i address private)) as [b' [e'|]] eqn:Hrun;
    [discriminate Hcreate|].
  unfold value, ret in Hcreate. simpl in Hcreate. injection Hcreate as ->.
  destruct (created_object_opens i address private data signKey encKey id
              Hvis Hhead Hdec Hsig Hs He Hid Haddr b Hrun)
    as [c [b1 [opened [Hm [H1 [Hopen Hrest]]]]]].
  simpl completed in Hm, Hopen. simpl incompleteKey in Hopen.
  eexists. exists b1, opened. split; [exact Hm|]. split; [exact H1|].
  split; [|exact Hrest].
  unfold cipher.NewTaglessBroadcast. rewrite bind_call, Hopen. reflexivity.
Qed.

End CreateThenOpen.

(** ** Identities: import, export and published keys *)

Section IdentityFacts.
Context {C : Collaborators} {D : MoreCollaborators}.

(** X11.  [ImportWIF] reports the first input that fails, in the order
    address, signing key, decryption key: the error of the address as it is,
    the error of a key behind "signing key decode failed: " or "encryption
    key decode failed: ", the error of [createAddress] as it is.  It returns
    exactly one of an identity and an error, and an identity it returns has
    behavior 0 and the POW parameters passed in. *)
Theorem ImportWIF_errors_and_fields (addressStr signingKeyWif decryptionKeyWif : string)
    (nonceTrials extraBytes : N) :
  let run := identity.ImportWIF addressStr signingKeyWif decryptionKeyWif
               nonceTrials extraBytes in
  (forall e, DecodeAddress addressStr = Err e -> run = (None, Some e))
  /\ (forall addr e,
        DecodeAddress addressStr = Ok addr -> DecodeWIF signingKeyWif = Err e ->
        run = (None, Some (errorPrefixed "signing key decode failed: " e)))
  /\ (forall addr sk e,
        DecodeAddress addressStr = Ok addr -> DecodeWIF signingKeyWif = Ok sk ->
        DecodeWIF decryptionKeyWif = Err e ->
        run = (None, Some (errorPrefixed "encryption key decode failed: " e)))
  /\ (forall addr sk dk e,
        DecodeAddress addressStr = Ok addr -> DecodeWIF signingKeyWif = Ok sk ->
        DecodeWIF decryptionKeyWif = Ok dk ->
        createAddress (Address_Version addr) (Address_Stream addr)
          (identity.hashHelper (SerializeUncompressed (PubKey sk))
                               (SerializeUncompressed (PubKey dk))) = Err e ->
        run = (None, Some e))
  /\ (fst run = None <-> snd run <> None)
  /\ (forall priv, fst run = Some priv ->
        identity.Behavior priv = 0%N
        /\ identity.Data priv = {| pow.NonceTrialsPerByte := nonceTrials;
                                   pow.ExtraBytes := extraBytes |}).
Proof.
  cbv zeta. unfold identity.ImportWIF, identity.hash.
  split; [|split; [|split; [|split; [|split]]]].
  - intros e ->. reflexivity.
  - intros addr e -> ->. reflexivity.
  - intros addr sk e -> -> ->. reflexivity.
  - intros addr sk dk e -> -> ->. simpl. intros ->. reflexivity.
  - destruct (DecodeAddress addressStr) as [addr|e]; [|simpl; split; congruence].
    destruct (DecodeWIF signingKeyWif) as [sk|e]; [|simpl; split; congruence].
    destruct (DecodeWIF decryptionKeyWif) as [dk|e]; [|simpl; split; congruence].
    simpl. destruct (createAddress _ _ _) as [a|e]; [|simpl; split; congruence].
    simpl. destruct (bytes_Equal _ _); simpl; split; congruence.
  - intros priv.
    destruct (DecodeAddress addressStr) as [addr|e]; [|discriminate].
    destruct (DecodeWIF signingKeyWif) as [sk|e]; [|discriminate].
    destruct (DecodeWIF decryptionKeyWif) as [dk|e]; [|discriminate].
    simpl. destruct (createAddress _ _ _) as [a|e]; [|discriminate].
    simpl. destruct (bytes_Equal _ _); simpl; [|discriminate].
    intros H. injection H as <-. simpl. auto.
Qed.

(** X12.  Importing what [ExportWIF] exported gives back the two private
    keys and the address re-made from them, provided the address string and
    the two WIF strings decode to what they encode and the address re-made has
    the ripe hash of the decoded one.  Behavior and POW data are not
    exported: the identity imported has behavior 0 and the POW parameters
    passed to [ImportWIF]. *)
Theorem ExportWIF_ImportWIF (id : identity.Private) (nonceTrials extraBytes : N)
    (addr rederived : Address) :
  DecodeAddress (Address_String (identity.address id)) = Ok addr ->
  DecodeWIF (EncodeWIF (identity.SigningKey id)) = Ok (identity.SigningKey id) ->
  DecodeWIF (EncodeWIF (identity.DecryptionKey id)) = Ok (identity.DecryptionKey id) ->
  createAddress (Address_Version addr) (Address_Stream addr) (identity.hash id)
  = Ok rederived ->
  Address_RipeHash rederived = Address_RipeHash addr ->
  let '(address, signingKeyWif, decryptionKeyWif) := identity_export.ExportWIF id in
  identity.ImportWIF address signingKeyWif decryptionKeyWif nonceTrials extraBytes
  = (Some {| identity.address := rederived;
             identity.Data := {| pow.NonceTrialsPerByte := nonceTrials;
                                 pow.ExtraBytes := extraBytes |};
             identity.SigningKey := identity.SigningKey id;
             identity.DecryptionKey := identity.DecryptionKey id;
             identity.Behavior := 0 |},
     None).
Proof.
  intros Ha Hs Hd Hc Hr. unfold identity_export.ExportWIF, identity.ImportWIF.
  rewrite Ha, Hs, Hd. unfold identity.hash in *. simpl. rewrite Hc. simpl.
  rewrite (proj2 (bytes_Equal_true_iff _ _) Hr). reflexivity.
Qed.

(** X13.  [ToPubKeyData] panics exactly when a serialized public key is
    empty; the keys it publishes are always 64 bytes long.  For keys that
    serialize to 0x04 and 64 bytes, it publishes those 64 bytes with the
    identity's POW data and behavior, and the ripe hash of the identity is the
    hash of the two published keys with 0x04 put back in front. *)
Theorem ToPubKeyData_publishes_keys (id : identity.Private) :
  let vser := SerializeUncompressed (PubKey (identity.SigningKey id)) in
  let eser := SerializeUncompressed (PubKey (identity.DecryptionKey id)) in
  ((exists s, identity_export.ToPubKeyData id = Panics s) <-> vser = [] \/ eser = [])
  /\ (forall d, identity_export.ToPubKeyData id = Returns d ->
        length (identity_export.VerificationKey d) = 64%nat
        /\ length (identity_export.EncryptionKey d) = 64%nat
        /\ identity_export.Pow d = identity.Data id
        /\ identity_export.Behavior d = identity.Behavior id)
  /\ (forall vk ek,
        vser = x04 :: vk -> eser = x04 :: ek ->
        length vk = 64%nat -> length ek = 64%nat ->
        exists d, identity_export.ToPubKeyData id = Returns d
                  /\ identity_export.VerificationKey d = vk
                  /\ identity_export.EncryptionKey d = ek
                  /\ identity.hashHelper (x04 :: identity_export.VerificationKey d)
                                         (x04 :: identity_export.EncryptionKey d)
                     = identity.hash id).
Proof.
  cbv zeta. unfold identity_export.ToPubKeyData, identity.hash.
  assert (Hcopy : forall src, length (identity_export.copy64 src) = 64%nat).
  { intros src. unfold identity_export.copy64.
    rewrite length_app, length_firstn, repeat_length. lia. }
  assert (Hexact : forall src, length src = 64%nat -> identity_export.copy64 src = src).
  { intros src Hlen. unfold identity_export.copy64.
    rewrite <- Hlen, firstn_all, Nat.sub_diag. apply app_nil_r. }
  split; [|split].
  - destruct (SerializeUncompressed (PubKey (identity.SigningKey id))) as [|v vk].
    + split; [auto|]. intros _. eexists. reflexivity.
    + destruct (SerializeUncompressed (PubKey (identity.DecryptionKey id))) as [|x ek].
      * split; [auto|]. intros _. eexists. reflexivity.
      * split; [intros [s Hs]; discriminate Hs|]. intros [H|H]; discriminate H.
  - intros d.
    destruct (SerializeUncompressed (PubKey (identity.SigningKey id))) as [|v vk];
      [discriminate|].
    destruct (SerializeUncompressed (PubKey (identity.DecryptionKey id))) as [|x ek];
      [discriminate|].
    intros H. injection H as <-. simpl. rewrite !Hcopy.
    destruct (identity.Data id). auto.
  - intros vk ek -> -> Hv He. eexists. split; [reflexivity|]. simpl.
    rewrite !Hexact by assumption. auto.
Qed.

End IdentityFacts.

(** ** NewHD: the search for the decryption key *)

Section HDFacts.
Context {C : Collaborators} {HD : HDCollaborators}.

Lemma indexAfter_shift (j : nat) (i : N) :
  identity_hd.indexAfter i (S j) = identity_hd.indexAfter (identity_hd.add32 i 1) j.
Proof.
  unfold identity_hd.indexAfter. induction j as [|j IH]; [reflexivity|].
  change (Nat.iter (S (S j)) (fun x => identity_hd.add32 x 1) i)
    with (identity_hd.add32 (Nat.iter (S j) (fun x => identity_hd.add32 x 1) i) 1).
  rewrite IH. reflexivity.
Qed.

Lemma findDecryptionKey_returns (fuel : nat) (a : ExtendedKey)
    (signing : result PrivateKey) (i : N) (sk dk : PrivateKey) :
  identity_hd.findDecryptionKey fuel a signing i = Some (Returns (sk, dk)) ->
  signing = Ok sk
  /\ exists k encKey h,
       (k < fuel)%nat
       /\ (forall j, (j < k)%nat -> identity_hd.passedOver a sk (identity_hd.indexAfter i j))
       /\ Child a (identity_hd.indexAfter i k) = Ok encKey
       /\ ECPrivKey encKey = Ok dk
       /\ identity.hashHelper (SerializeUncompressed (PubKey sk))
                              (SerializeUncompressed (PubKey dk)) = x00 :: h.
Proof.
  revert i. induction fuel as [|fuel IH]; intros i; [discriminate|].
  cbn [identity_hd.findDecryptionKey].
  assert (Hskip : identity_hd.passedOver a sk i ->
                  identity_hd.findDecryptionKey fuel a signing (identity_hd.add32 i 1)
                  = Some (Returns (sk, dk)) ->
                  signing = Ok sk
                  /\ exists k encKey h,
                       (k < S fuel)%nat
                       /\ (forall j, (j < k)%nat ->
                             identity_hd.passedOver a sk (identity_hd.indexAfter i j))
                       /\ Child a (identity_hd.indexAfter i k) = Ok encKey
                       /\ ECPrivKey encKey = Ok dk
                       /\ identity.hashHelper (SerializeUncompressed (PubKey sk))
                                              (SerializeUncompressed (PubKey dk))
                          = x00 :: h).
  { intros Hpass Hrec. apply IH in Hrec.
    destruct Hrec as [Hs [k [encKey [h [Hk [Hbefore [Hchild [Hec Hh]]]]]]]].
    split; [exact Hs|]. exists (S k), encKey, h.
    split; [lia|]. split; [|rewrite indexAfter_shift; auto].
    intros [|j] Hj; [exact Hpass|]. rewrite indexAfter_shift. apply Hbefore. lia. }
  destruct (Child a i) as [encKey|e] eqn:Hchild.
  - destruct signing as [sk0|e0]; [|discriminate].
    destruct (ECPrivKey encKey) as [dk0|e1] eqn:Hec; [|discriminate].
    destruct (identity.hashHelper (SerializeUncompressed (PubKey sk0))
                (SerializeUncompressed (PubKey dk0))) as [|h0 h] eqn:Hh; [discriminate|].
    destruct (Byte.eqb h0 x00) eqn:Hz.
    + intros Hret. injection Hret as <- <-. split; [reflexivity|].
      apply Byte.byte_dec_bl in Hz. subst h0.
      exists 0%nat, encKey, h. simpl. repeat split; auto; [lia|]. intros j Hj. lia.
    + intros Hrec. apply Byte.eqb_false in Hz.
      assert (Hsk : sk0 = sk).
      { apply IH in Hrec. destruct Hrec as [Hs _]. congruence. }
      subst sk0. apply Hskip; [|exact Hrec].
      right. exists encKey, dk0, h0, h. auto.
  - intros Hrec.
    assert (Hs : signing = Ok sk) by (apply IH in Hrec; tauto).
    apply Hskip; [|exact Hrec]. left. eauto.
Qed.

Lemma findDecryptionKey_more_fuel (fuel fuel' : nat) (a : ExtendedKey)
    (signing : result PrivateKey) (i : N) (r : outcome (PrivateKey * PrivateKey)) :
  identity_hd.findDecryptionKey fuel a signing i = Some r ->
  (fuel <= fuel')%nat ->
  identity_hd.findDecryptionKey fuel' a signing i = Some r.
Proof.
  revert fuel' i. induction fuel as [|fuel IH]; intros fuel' i; [discriminate|].
  destruct fuel' as [|fuel']; [lia|]. cbn [identity_hd.findDecryptionKey].
  intros Hrun Hle.
  destruct (Child a i) as [encKey|e]; [|apply IH; [exact Hrun|lia]].
  destruct signing as [sk|e0]; [|exact Hrun].
  destruct (ECPrivKey encKey) as [dk|e1]; [|exact Hrun].
  destruct (identity.hashHelper _ _) as [|h0 h]; [exact Hrun|].
  destruct (Byte.eqb h0 x00); [exact Hrun|]. apply IH; [exact Hrun|lia].
Qed.

Lemma findDecryptionKey_finds (k : nat) (a : ExtendedKey) (i : N) (sk dk : PrivateKey)
    (encKey : ExtendedKey) (h : bytes) :
  (forall j, (j < k)%nat -> identity_hd.passedOver a sk (identity_hd.indexAfter i j)) ->
  Child a (identity_hd.indexAfter i k) = Ok encKey ->
  ECPrivKey encKey = Ok dk ->
  identity.hashHelper (SerializeUncompressed (PubKey sk))
                      (SerializeUncompressed (PubKey dk)) = x00 :: h ->
  identity_hd.findDecryptionKey (S k) a (Ok sk) i = Some (Returns (sk, dk)).
Proof.
  revert i. induction k as [|k IH]; intros i Hbefore Hchild Hec Hh.
  - simpl in Hchild. cbn [identity_hd.findDecryptionKey]. now rewrite Hchild, Hec, Hh.
  - rewrite indexAfter_shift in Hchild.
    assert (Hrec : identity_hd.findDecryptionKey (S k) a (Ok sk) (identity_hd.add32 i 1)
                   = Some (Returns (sk, dk))).
    { apply IH; auto. intros j Hj. rewrite <- indexAfter_shift. apply Hbefore. lia. }
    remember (S k) as fuel. cbn [identity_hd.findDecryptionKey].
    destruct (Hbefore 0%nat ltac:(lia)) as [[e He]|[ek [dk0 [h0 [t [Hc [He [Hhash Hnz]]]]]]]];
      simpl in *.
    + now rewrite He.
    + rewrite Hc, He, Hhash.
      destruct (Byte.eqb h0 x00) eqn:Hz; [|exact Hrec].
      apply Byte.byte_dec_bl in Hz. contradiction.
Qed.

(** X14.  An identity returned by [NewHD] comes with a nil error, from a
    private master key.  Its signing key is the child 0 of
    m/purpose'/identity'/stream'/0', its decryption key the child of the same
    key at the first index, counted from 1, that can be derived and gives a
    hash starting with a zero byte: every index before it was passed over.
    Its address is the version-4 address made from the stream and that hash,
    its behavior the one given, its POW parameters the defaults.  A run that
    has ended ends the same way with more iterations allowed. *)
Theorem NewHD_returns_first_match (fuel : nat) (masterKey : ExtendedKey)
    (n stream behavior : N) :
  (forall id e,
     identity_hd.NewHD fuel masterKey n stream behavior = Some (Returns (Some id, e)) ->
     e = None
     /\ IsPrivate masterKey = true
     /\ identity.Behavior id = behavior
     /\ identity.Data id = {| pow.NonceTrialsPerByte := DefaultNonceTrialsPerByte;
                              pow.ExtraBytes := DefaultExtraBytes |}
     /\ exists p i s a signKey encKey k h,
          Child masterKey identity_hd.BMPurposeCode = Ok p
          /\ Child p (identity_hd.add32 HardenedKeyStart n) = Ok i
          /\ Child i (identity_hd.add32 HardenedKeyStart stream) = Ok s
          /\ Child s (identity_hd.add32 HardenedKeyStart 0) = Ok a
          /\ Child a 0 = Ok signKey
          /\ ECPrivKey signKey = Ok (identity.SigningKey id)
          /\ (k < fuel)%nat
          /\ (forall j, (j < k)%nat ->
                identity_hd.passedOver a (identity.SigningKey id) (identity_hd.indexAfter 1 j))
          /\ Child a (identity_hd.indexAfter 1 k) = Ok encKey
          /\ ECPrivKey encKey = Ok (identity.DecryptionKey id)
          /\ identity.hash id = x00 :: h
          /\ createAddress 4 stream (identity.hash id) = Ok (identity.address id))
  /\ (forall r fuel',
        identity_hd.NewHD fuel masterKey n stream behavior = Some r ->
        (fuel <= fuel')%nat ->
        identity_hd.NewHD fuel' masterKey n stream behavior = Some r).
Proof.
  unfold identity_hd.NewHD. split.
  - intros id e.
    destruct (IsPrivate masterKey) eqn:Hpriv; simpl negb; cbv iota; [|discriminate].
    destruct (Child masterKey _) as [p|e0] eqn:Hp; [|discriminate].
    destruct (Child p _) as [i|e0] eqn:Hi; [|discriminate].
    destruct (Child i _) as [s|e0] eqn:Hs; [|discriminate].
    destruct (Child s _) as [a|e0] eqn:Ha; [|discriminate].
    destruct (Child a 0) as [signKey|e0] eqn:Hsign; [|discriminate].
    destruct (identity_hd.findDecryptionKey fuel a (ECPrivKey signKey) 1)
      as [[[sk dk]|msg]|] eqn:Hfind; try discriminate.
    destruct (createAddress 4 stream _) as [address|e0] eqn:Hcreate; [|discriminate].
    intros Hret. injection Hret as <- <-. simpl.
    apply findDecryptionKey_returns in Hfind.
    destruct Hfind as [Hsk [k [encKey [h [Hk [Hbefore [Hchild [Hec Hh]]]]]]]].
    repeat (split; [reflexivity|]).
    exists p, i, s, a, signKey, encKey, k, h. unfold identity.hash. simpl.
    rewrite Hh in *. auto 15.
  - intros r fuel'.
    destruct (negb (IsPrivate masterKey)); [auto|].
    destruct (Child masterKey _) as [p|e0]; [|auto].
    destruct (Child p _) as [i|e0]; [|auto].
    destruct (Child i _) as [s|e0]; [|auto].
    destruct (Child s _) as [a|e0]; [|auto].
    destruct (Child a 0) as [signKey|e0]; [|auto].
    destruct (identity_hd.findDecryptionKey fuel a (ECPrivKey signKey) 1)
      as [r0|] eqn:Hfind; [|discriminate].
    intros Hret Hle.
    now rewrite (findDecryptionKey_more_fuel fuel fuel' a _ 1 r0 Hfind Hle).
Qed.

(** X15.  [NewHD] ends: with the five keys of the path derived, the signing
    key extracted, and an index [k] steps after 1 whose child gives a hash
    starting with a zero byte while every index before it is passed over,
    [k + 1] iterations are enough, and [NewHD] returns the identity with these
    keys when the address can be made, the error of [createAddress]
    otherwise. *)
Theorem NewHD_ends_at_first_match (fuel k : nat) (masterKey p i s a signKey encKey : ExtendedKey)
    (n stream behavior : N) (sk dk : PrivateKey) (h : bytes) :
  IsPrivate masterKey = true ->
  Child masterKey identity_hd.BMPurposeCode = Ok p ->
  Child p (identity_hd.add32 HardenedKeyStart n) = Ok i ->
  Child i (identity_hd.add32 HardenedKeyStart stream) = Ok s ->
  Child s (identity_hd.add32 HardenedKeyStart 0) = Ok a ->
  Child a 0 = Ok signKey ->
  ECPrivKey signKey = Ok sk ->
  (forall j, (j < k)%nat -> identity_hd.passedOver a sk (identity_hd.indexAfter 1 j)) ->
  Child a (identity_hd.indexAfter 1 k) = Ok encKey ->
  ECPrivKey encKey = Ok dk ->
  identity.hashHelper (SerializeUncompressed (PubKey sk))
                      (SerializeUncompressed (PubKey dk)) = x00 :: h ->
  (k < fuel)%nat ->
  identity_hd.NewHD fuel masterKey n stream behavior
  = Some (Returns
      match createAddress 4 stream (x00 :: h) with
      | Err e => (None, Some e)
      | Ok address =>
        (Some {| identity.address := address;
                 identity.Data := {| pow.NonceTrialsPerByte := DefaultNonceTrialsPerByte;
                                     pow.ExtraBytes := DefaultExtraBytes |};
                 identity.SigningKey := sk;
                 identity.DecryptionKey := dk;
                 identity.Behavior := behavior |},
         None)
      end).
Proof.
  intros Hpriv Hp Hi Hs Ha Hsign Hsk Hbefore Hchild Hec Hh Hk.
  unfold identity_hd.NewHD. rewrite Hpriv, Hp, Hi, Hs, Ha, Hsign, Hsk. simpl negb. cbv iota.
  rewrite (findDecryptionKey_more_fuel (S k) fuel a (Ok sk) 1 (Returns (sk, dk)));
    [|now apply (findDecryptionKey_finds k a 1 sk dk encKey h)|lia].
  rewrite Hh. destruct (createAddress 4 stream (x00 :: h)); reflexivity.
Qed.

End HDFacts.


(** ** Opening: the errors that come before the signature check *)

Section OpenErrors.
Context {C : Collaborators}.

(** X16.  Once the ciphertext has decrypted, [newBroadcast] returns no
    [Broadcast] and, unchanged, the error of [decodeFromDecrypted], of the
    conversion of the signing key, of the conversion of the encryption key, or
    of [NewPublic], whichever comes first, and its trace ends with the
    decryption: [verify] has then made none of its calls to [sha256.Sum256],
    [sha1.Sum], [btcec.ParseSignature] and [Verify].  (What [Decrypt] and
    [NewPublic] compute inside, hashes included, is theirs and leaves no
    event.)  In every run [verify] makes the first three of these calls, in
    this order, or none of the four. *)
Theorem newBroadcast_forwards_early_errors (msg : obj.Broadcast) (key : PrivateKey)
    (address : Address) (dec : bytes) :
  Decrypt key (obj.Encrypted msg) = Ok dec ->
  let run := cipher.newBroadcast msg key address in
  (forall r e, cipher.decodeFromDecrypted None dec = (r, Err e) ->
     run = ([EvDecrypt], Returns (None, Some e)))
  /\ (forall r b, cipher.decodeFromDecrypted None dec = (r, Ok b) ->
        (forall e, ToBtcec (SigningKey (cipher.data b)) = Err e ->
           run = ([EvDecrypt], Returns (None, Some e)))
        /\ (forall signKey e,
              ToBtcec (SigningKey (cipher.data b)) = Ok signKey ->
              ToBtcec (EncryptionKey (cipher.data b)) = Err e ->
              run = ([EvDecrypt], Returns (None, Some e)))
        /\ (forall signKey encKey e,
              ToBtcec (SigningKey (cipher.data b)) = Ok signKey ->
              ToBtcec (EncryptionKey (cipher.data b)) = Ok encKey ->
              NewPublic signKey encKey (Behavior (cipher.data b)) (Pow (cipher.data b))
                (Address_Version address) (Address_Stream address) = Err e ->
              run = ([EvDecrypt], Returns (None, Some e))))
  /\ (trace run = [EvDecrypt]
      \/ exists checks, trace run = EvDecrypt :: EvSHA256 :: EvSHA1 :: EvParseSignature :: checks).
Proof.
  intros Hdec. cbv zeta. unfold cipher.newBroadcast. rewrite bind_call, Hdec.
  change (Bytes (fst (Write emptyBuffer dec))) with dec.
  split; [|split].
  - intros r e ->. reflexivity.
  - intros r b ->. unfold cipher.verify. simpl cipher.msg. simpl cipher.data.
    split; [|split].
    + intros e ->. reflexivity.
    + intros signKey e -> ->. reflexivity.
    + intros signKey encKey e -> -> ->. reflexivity.
  - destruct (cipher.decodeFromDecrypted None dec) as [r [b|e]]; [|left; reflexivity].
    unfold cipher.verify. simpl cipher.msg. simpl cipher.data. simpl cipher.signature.
    destruct (ToBtcec (SigningKey (cipher.data b))) as [signKey|e]; [|left; reflexivity].
    destruct (ToBtcec (EncryptionKey (cipher.data b))) as [encKey|e]; [|left; reflexivity].
    destruct (NewPublic _ _ _ _ _ _) as [id|e]; [|left; reflexivity].
    destruct (negb (String.eqb _ _)); [left; reflexivity|].
    destruct (cipher.encodeForSigning _ emptyBuffer) as [[buf [e|]]|s];
      try (left; reflexivity).
    right. unfold trace, bind, call, ret. simpl.
    destruct (ParseSignature (cipher.signature b)) as [sig|e]; simpl;
      [|eexists; reflexivity].
    destruct (Verify sig (Sum256 (Bytes buf)) signKey); simpl; [eexists; reflexivity|].
    destruct (Verify sig (sha1_Sum (Bytes buf)) signKey); simpl; eexists; reflexivity.
Qed.

End OpenErrors.

(** ** The further properties on the sample collaborators *)

Module SampleMore_facts.
Import Sample SampleMore.
#[local] Existing Instance Sample.collaborators.
#[local] Existing Instance SampleMore.more.

Lemma varint_law (w : Buffer) (n : N) :
  (n < 2 ^ 64)%N ->
  exists p, WriteVarInt w n = (mkBuffer (Bytes w ++ p), None)
            /\ forall rest, ReadVarInt (p ++ rest) = (rest, Ok n).
Proof.
  intros Hn. exists (varint n). split; [reflexivity|].
  intros rest. now apply Sample_facts.readVarInt_varint.
Qed.

Lemma invVect_law (w : Buffer) (iv : wire.InvVect) :
  length (wire.Hash iv) = 32%nat ->
  exists p, writeInvVect w iv = (mkBuffer (Bytes w ++ p), None)
            /\ forall rest, readInvVect (p ++ rest) = (rest, Ok iv).
Proof.
  intros Hlen. exists (wire.Hash iv). split; [reflexivity|].
  intros rest. cbn [readInvVect collaborators]. unfold readInv.
  rewrite (Sample_facts.ReadFull_exact _ _ 32 Hlen). now destruct iv.
Qed.

Lemma varint_length (n : N) : (length (varint n) <= 9)%nat.
Proof.
  unfold varint.
  destruct (n <? 253)%N; [simpl; lia|].
  destruct (n <=? 65535)%N; [simpl; lia|].
  destruct (n <=? 4294967295)%N; simpl; lia.
Qed.

Lemma payload_by_visible_fields (m m' : Bitmessage) (w : Buffer) :
  visible m = visible m' -> encodeBroadcast m w = encodeBroadcast m' w.
Proof.
  destruct m, m'. unfold visible. simpl. intros H. injection H as -> -> -> -> ->.
  reflexivity.
Qed.

Lemma decrypt_inverts_encrypt (k : N) (d c : bytes) :
  (pubKey k < 256 ^ 8)%N ->
  encrypt (pubKey k) d = Ok c -> decrypt k c = Ok d.
Proof.
  intros Hk. unfold encrypt, decrypt. destruct (400 <? length d)%nat; [discriminate|].
  assert (Hlen : length (be 8 (pubKey k)) = 8%nat) by apply Sample_facts.length_be.
  assert (Hval : unbe (be 8 (pubKey k)) = pubKey k) by now apply Sample_facts.unbe_be.
  remember (be 8 (pubKey k)) as pre eqn:Hpre. clear Hpre.
  intros H. injection H as <-.
  replace (length (pre ++ d) <? 8)%nat with false.
  - rewrite <- Hlen, firstn_app, skipn_app, Nat.sub_diag, firstn_all, skipn_all. simpl.
    rewrite app_nil_r, Hval. now rewrite N.eqb_refl.
  - symmetry. apply Nat.ltb_ge. rewrite length_app. lia.
Qed.

End SampleMore_facts.

Section MoreRuns.
Import Sample SampleMore SampleHD.
#[local] Existing Instance Sample.collaborators.
#[local] Existing Instance SampleMore.more.
#[local] Existing Instance SampleHD.hd.

Lemma Decode_count_or_error_witness :
  exists msg' r' e,
    value (msginv.Decode twoInv truncatedInv) = (msg', r', Some e)
    /\ msginv.InvList msg' = [inv1]
    /\ (length (msginv.InvList msg') < 3)%nat.
Proof.
  exists {| msginv.InvList := [inv1] |}, [], ErrUnexpectedEOF.
  assert (Hrun : value (msginv.Decode twoInv truncatedInv)
                 = ({| msginv.InvList := [inv1] |}, [], Some ErrUnexpectedEOF))
    by (vm_compute; reflexivity).
  split; [exact Hrun|]. split; [reflexivity|].
  refine (proj1 (proj1 (proj2 (Decode_count_or_error (C := Sample.collaborators)
                   twoInv _ truncatedInv
                   (wire.Hash inv1 ++ firstn 16 (wire.Hash inv2)) [] 3%N
                   (Some ErrUnexpectedEOF) _ _ Hrun))) _).
  - vm_compute; reflexivity.
  - apply N.leb_le. reflexivity.
  - discriminate.
Defined.

Lemma Encode_Decode_roundtrip_witness :
  exists out,
    msginv_encode.Encode twoInv emptyBuffer = (out, None)
    /\ forall old,
         msginv.Decode old (Bytes out)
         = ([EvMake 2; EvReadInvVect; EvReadInvVect], (twoInv, [], None)).
Proof.
  apply (Encode_Decode_roundtrip (C := Sample.collaborators) (D := SampleMore.more) twoInv).
  - reflexivity.
  - exact SampleMore_facts.varint_law.
  - intros w iv [<-|[<-|[]]]; apply SampleMore_facts.invVect_law; vm_compute; reflexivity.
  - apply N.leb_le. reflexivity.
Defined.

Lemma Encode_within_MaxPayloadLength_witness :
  (N.of_nat (length (Bytes (fst (msginv_encode.Encode twoInv emptyBuffer))))
   <= N.of_nat (length (Bytes emptyBuffer)) + 1600009)%N.
Proof.
  assert (Hv : forall (w w' : Buffer) (n : N) (e : error),
             WriteVarInt w n = (w', e) ->
             (N.of_nat (length (Bytes w')) <= N.of_nat (length (Bytes w)) + MaxVarIntSize)%N).
  { intros w w' n e H. injection H as <- _. simpl Bytes. rewrite length_app.
    pose proof (SampleMore_facts.varint_length n).
    change MaxVarIntSize with 9%N. lia. }
  assert (Hi : forall (w w' : Buffer) (iv : wire.InvVect) (e : error),
             In iv (msginv.InvList twoInv) -> writeInvVect w iv = (w', e) ->
             (N.of_nat (length (Bytes w'))
              <= N.of_nat (length (Bytes w)) + maxInvVectPayload)%N).
  { intros w w' iv e Hin H. injection H as <- _. simpl Bytes. rewrite length_app.
    change maxInvVectPayload with 32%N.
    assert (Hlen : length (wire.Hash iv) = 32%nat)
      by (destruct Hin as [<-|[<-|[]]]; vm_compute; reflexivity).
    lia. }
  exact (proj2 (Encode_within_MaxPayloadLength (C := Sample.collaborators)
                  (D := SampleMore.more) twoInv Hv Hi)
           emptyBuffer _ _ (surjective_pairing _)).
Defined.

Lemma newBroadcast_returns_authenticated_witness :
  cipher.msg aliceTagged = Some (obj.Tagged aliceObject)
  /\ (N.of_nat (length (cipher.signature aliceTagged)) <= SignatureMaxLength)%N
  /\ exists buf,
       cipher.encodeForSigning aliceTagged emptyBuffer = Returns (buf, None)
       /\ (checksAgainst (cipher.signature aliceTagged) (Sum256 (Bytes buf))
             (pubKey (identity.SigningKey alice)) = true
           \/ checksAgainst (cipher.signature aliceTagged) (sha1_Sum (Bytes buf))
                (pubKey (identity.SigningKey alice)) = true).
Proof.
  destruct (newBroadcast_returns_authenticated (C := Sample.collaborators)
              (obj.Tagged aliceObject) (v5Key aliceAddress) aliceAddress aliceTagged None
              ltac:(vm_compute; reflexivity))
    as [_ [Hmsg [Hlen [_ [signKey [encKey [id [buf [Hs [_ [_ [_ [Henc Hchk]]]]]]]]]]]]].
  split; [exact Hmsg|]. split; [exact Hlen|]. exists buf. split; [exact Henc|].
  assert (Hkey : signKey = pubKey (identity.SigningKey alice)).
  { vm_compute in Hs. injection Hs as <-. vm_compute. reflexivity. }
  now rewrite <- Hkey.
Defined.

Lemma decodeFromDecrypted_signature_bytes_witness :
  cipher.decodeFromDecrypted None trailing
  = (repeat x2a 2,
     Ok {| cipher.msg := None; cipher.data := messageOf alice hello;
           cipher.signature := repeat x2a 4 |})
  /\ cipher.decodeFromDecrypted None cutShort = ([], Err ErrUnexpectedEOF).
Proof.
  split.
  - refine (proj1 (decodeFromDecrypted_signature_bytes (C := Sample.collaborators)
                     None trailing (varint 4 ++ repeat x2a 6) (repeat x2a 6)
                     (messageOf alice hello) 4 _ _ _) _).
    + vm_compute; reflexivity.
    + vm_compute; reflexivity.
    + apply N.leb_le. reflexivity.
    + simpl. lia.
  - refine (proj2 (decodeFromDecrypted_signature_bytes (C := Sample.collaborators)
                     None cutShort (varint 4 ++ repeat x2a 2) (repeat x2a 2)
                     (messageOf alice hello) 4 _ _ _) _).
    + vm_compute; reflexivity.
    + vm_compute; reflexivity.
    + apply N.leb_le. reflexivity.
    + simpl. lia.
Defined.

Lemma Create_returns_signed_object_witness :
  cipher.data aliceTagged = messageOf alice hello
  /\ trace (cipher.CreateTaggedBroadcast 1000 (messageOf alice hello) (tagOf aliceAddress)
              alice)
     = [EvSHA256; EvSign; EvBroadcastDecryptionKey; EvEncrypt]
  /\ exists c,
       cipher.msg aliceTagged
       = Some (obj.Tagged (obj.NewTaggedBroadcast 0 1000 1 (tagOf aliceAddress) c)).
Proof.
  destruct (proj2 (Create_returns_signed_object (C := Sample.collaborators)
                     (messageOf alice hello) alice 1000 (tagOf aliceAddress)
                     aliceTagged None)
              ltac:(vm_compute; reflexivity))
    as [_ [_ [Hdata [Htrace [b1 [sig [b2 [c [_ [_ [_ [_ [_ Hmsg]]]]]]]]]]]]].
  split; [exact Hdata|]. split; [exact Htrace|]. exists c. exact Hmsg.
Defined.

Lemma CreateTagged_then_NewTagged_witness :
  exists m b1 opened,
    cipher.msg aliceTagged = Some (obj.Tagged m)
    /\ cipher.broadcastEncodeForSigning emptyBuffer
         (cipher.incompleteTaggedBroadcast 1000 (addrStream aliceAddress) (tagOf aliceAddress))
         (messageOf alice hello) = (b1, None)
    /\ cipher.NewTaggedBroadcast m aliceAddress
       = ([EvTag; EvBroadcastDecryptionKey; EvDecrypt; EvSHA256; EvSHA1;
           EvParseSignature; EvVerify (Sum256 (Bytes b1))],
          Returns (Some opened, None))
    /\ visible (cipher.data opened) = visible (messageOf alice hello)
    /\ cipher.signature opened = cipher.signature aliceTagged
    /\ cipher.msg opened = cipher.msg aliceTagged.
Proof.
  refine (CreateTagged_then_NewTagged (C := Sample.collaborators) (L := Sample_facts.laws)
            1000 (messageOf alice hello) (tagOf aliceAddress) alice
            (pubKey 11) (pubKey 12) aliceAddress aliceTagged
            _ _ _ _ _ _ _ _ _ _).
  - intros m w Hvis. now apply SampleMore_facts.payload_by_visible_fields.
  - intros c w. reflexivity.
  - intros d c. apply SampleMore_facts.decrypt_inverts_encrypt. vm_compute. reflexivity.
  - intros b1 sig H1 H2. vm_compute in H1. injection H1 as <-.
    vm_compute in H2. injection H2 as <-.
    split; [apply N.leb_le; vm_compute; reflexivity|].
    eexists. split; vm_compute; reflexivity.
  - vm_compute; reflexivity.
  - vm_compute; reflexivity.
  - vm_compute; reflexivity.
  - reflexivity.
  - reflexivity.
  - vm_compute; reflexivity.
Defined.

Lemma CreateTagless_then_NewTagless_witness :
  exists m b1 opened,
    cipher.msg aliceTagless = Some (obj.Tagless m)
    /\ cipher.broadcastEncodeForSigning emptyBuffer
         (cipher.incompleteTaglessBroadcast 1000 (addrStream aliceAddress))
         (messageOf alice hello) = (b1, None)
    /\ cipher.NewTaglessBroadcast m aliceAddress
       = ([EvBroadcastDecryptionKey; EvDecrypt; EvSHA256; EvSHA1;
           EvParseSignature; EvVerify (Sum256 (Bytes b1))],
          Returns (Some opened, None))
    /\ visible (cipher.data opened) = visible (messageOf alice hello)
    /\ cipher.signature opened = cipher.signature aliceTagless
    /\ cipher.msg opened = cipher.msg aliceTagless.
Proof.
  refine (CreateTagless_then_NewTagless (C := Sample.collaborators) (L := Sample_facts.laws)
            1000 (messageOf alice hello) alice
            (pubKey 11) (pubKey 12) aliceAddress aliceTagless
            _ _ _ _ _ _ _ _ _).
  - intros m w Hvis. now apply SampleMore_facts.payload_by_visible_fields.
  - intros c w. reflexivity.
  - intros d c. apply SampleMore_facts.decrypt_inverts_encrypt. vm_compute. reflexivity.
  - intros b1 sig H1 H2. vm_compute in H1. injection H1 as <-.
    vm_compute in H2. injection H2 as <-.
    split; [apply N.leb_le; vm_compute; reflexivity|].
    eexists. split; vm_compute; reflexivity.
  - vm_compute; reflexivity.
  - vm_compute; reflexivity.
  - vm_compute; reflexivity.
  - reflexivity.
  - vm_compute; reflexivity.
Defined.

Lemma ImportWIF_errors_and_fields_witness :
  identity.ImportWIF (Address_String aliceAddress) "x" "12" 5 6
  = (None, Some (errorPrefixed "signing key decode failed: "
                   (errorString "key is not a decimal number"))).
Proof.
  exact (proj1 (proj2 (ImportWIF_errors_and_fields (C := Sample.collaborators)
                         (Address_String aliceAddress) "x" "12" 5 6))
           aliceAddress _ ltac:(vm_compute; reflexivity) ltac:(vm_compute; reflexivity)).
Defined.

Lemma ExportWIF_ImportWIF_witness :
  let '(address, signingKeyWif, decryptionKeyWif) := identity_export.ExportWIF alice in
  identity.ImportWIF address signingKeyWif decryptionKeyWif 5 6
  = (Some {| identity.address := aliceAddress;
             identity.Data := {| pow.NonceTrialsPerByte := 5; pow.ExtraBytes := 6 |};
             identity.SigningKey := identity.SigningKey alice;
             identity.DecryptionKey := identity.DecryptionKey alice;
             identity.Behavior := 0 |},
     None).
Proof.
  exact (ExportWIF_ImportWIF (C := Sample.collaborators) (D := SampleMore.more)
           alice 5 6 aliceAddress aliceAddress
           ltac:(vm_compute; reflexivity) ltac:(vm_compute; reflexivity)
           ltac:(vm_compute; reflexivity) ltac:(vm_compute; reflexivity) eq_refl).
Defined.

Lemma ToPubKeyData_publishes_keys_witness :
  exists d, identity_export.ToPubKeyData alice = Returns d
            /\ identity_export.VerificationKey d = be 64 (pubKey 11)
            /\ identity_export.EncryptionKey d = be 64 (pubKey 12)
            /\ identity.hashHelper (x04 :: identity_export.VerificationKey d)
                                   (x04 :: identity_export.EncryptionKey d)
               = identity.hash alice.
Proof.
  exact (proj2 (proj2 (ToPubKeyData_publishes_keys (C := Sample.collaborators)
                         alice))
           (be 64 (pubKey 11)) (be 64 (pubKey 12))
           ltac:(vm_compute; reflexivity) ltac:(vm_compute; reflexivity)
           ltac:(vm_compute; reflexivity) ltac:(vm_compute; reflexivity)).
Defined.

Lemma NewHD_ends_at_first_match_witness :
  exists address h,
    identity_hd.NewHD (H := SampleHD.hd) 2 7%N 0 1 3
    = Some (Returns
        (Some {| identity.address := address;
                 identity.Data := {| pow.NonceTrialsPerByte := 1000;
                                     pow.ExtraBytes := 1000 |};
                 identity.SigningKey := 857474%N;
                 identity.DecryptionKey := 857476%N;
                 identity.Behavior := 3 |},
         None))
    /\ createAddress 4 1 (x00 :: h) = Ok address.
Proof.
  pose (h := repeat x00 16 ++ [x4e; x0a; x90]).
  assert (Hrun := NewHD_ends_at_first_match (C := Sample.collaborators) (HD := SampleHD.hd)
            2 1 7%N 955013%N 165041%N 1186929%N 543791%N 1714947%N 1714951%N
            0%N 1%N 3%N 857474%N 857476%N h
            ltac:(vm_compute; reflexivity) ltac:(vm_compute; reflexivity)
            ltac:(vm_compute; reflexivity) ltac:(vm_compute; reflexivity)
            ltac:(vm_compute; reflexivity) ltac:(vm_compute; reflexivity)
            ltac:(vm_compute; reflexivity)).
  destruct (createAddress 4 1 (x00 :: h)) as [address|e] eqn:Hc;
    [|vm_compute in Hc; discriminate Hc].
  exists address, h. split; [|exact Hc].
  apply Hrun.
  - intros j Hj. assert (j = 0%nat) as -> by lia. left. eexists. vm_compute. reflexivity.
  - vm_compute. reflexivity.
  - vm_compute. reflexivity.
  - vm_compute. reflexivity.
  - lia.
Defined.

Lemma newBroadcast_forwards_early_errors_witness :
  cipher.newBroadcast
    (obj.Tagless (obj.NewTaglessBroadcast 0 1000 1 (be 8 (pubKey 5) ++ [x2a]))) 5%N
    aliceAddress
  = ([EvDecrypt], Returns (None, Some ErrUnexpectedEOF)).
Proof.
  refine (proj1 (newBroadcast_forwards_early_errors (C := Sample.collaborators)
                   (obj.Tagless (obj.NewTaglessBroadcast 0 1000 1 (be 8 (pubKey 5) ++ [x2a])))
                   5%N aliceAddress [x2a] _) [] _ _).
  - vm_compute. reflexivity.
  - vm_compute. reflexivity.
Defined.

End MoreRuns.
